(** * capellambse: the object-graph runtime and its metamodel helpers

    A shallow embedding of the parts of py-capellambse that the
    specification talks about:

    - [GitCredHelper]: [filehandler/git_credhelper.py], the git credential
      helper's [main].
    - [Tree], [IdentityMap]: the backing tree and the per-model identity map.
    - [Containment], [Association], [Allocation]: the stored relations.
    - [Descriptors]: the computed descriptors ([Backref], [Filter],
      [Single], [Alias], [DeprecatedAccessor]) written against the
      wrappers' attribute dispatch.
    - [Metamodel]: hand-written properties of the metamodel classes
      ([PhysicalLink.source] / [target], [Region.modes],
      [OperationalAnalysis.root_activity], [SystemAnalysis.root_component]).
    - [PhysicalComponent], [Inherited], [Roots], [ActorExchanges]: further
      hand-written properties ([PhysicalComponent.related_components],
      [Class.properties], [Enumeration.literals], the root accessors of
      the layers, [all_actor_exchanges]).
*)

From Stdlib Require Import Bool Arith Lia Ascii String List.
From stdpp Require Import gmap strings list fin_maps pretty.

(** ** Python exceptions

    The exception classes raised by the metamodel sources and by the
    runtime under them, followed by the error kinds of the
    specification's error taxonomy. *)
Inductive exn : Type :=
| SystemExit (code : nat)
| TypeError (msg : string)
| IndexError
| AttributeError (name : string)
| RuntimeError (msg : string)
| BrokenModelError (msg : string)
| AssertionError
| ValueError
| RecursionError
| MissingValueError
| UnknownType
| StructuralInvariantError
| CardinalityError
| AmbiguousResultError
| DanglingReferenceError.

(** The class of an exception, forgetting its message. *)
Inductive exn_class : Type :=
| CSystemExit | CTypeError | CIndexError | CAttributeError | CRuntimeError
| CBrokenModelError | CAssertionError | CValueError | CRecursionError
| CMissingValueError | CUnknownType
| CStructuralInvariantError | CCardinalityError | CAmbiguousResultError
| CDanglingReferenceError.

Definition class_of_exn (e : exn) : exn_class :=
  match e with
  | SystemExit _ => CSystemExit
  | TypeError _ => CTypeError
  | IndexError => CIndexError
  | AttributeError _ => CAttributeError
  | RuntimeError _ => CRuntimeError
  | BrokenModelError _ => CBrokenModelError
  | AssertionError => CAssertionError
  | ValueError => CValueError
  | RecursionError => CRecursionError
  | MissingValueError => CMissingValueError
  | UnknownType => CUnknownType
  | StructuralInvariantError => CStructuralInvariantError
  | CardinalityError => CCardinalityError
  | AmbiguousResultError => CAmbiguousResultError
  | DanglingReferenceError => CDanglingReferenceError
  end.

(** ** filehandler/git_credhelper.py *)
Module GitCredHelper.

(** How [main] ends: by returning, or through [raise SystemExit(code)]. *)
Inductive ending : Type :=
| Returned
| Exited (code : nat).

(** What an invocation does that can be observed: the strings it hands
    to [print], one for each call and in order, and how it ends. *)
Record run : Type := mkRun { stdout : list string; ending_of : ending }.

(** [print(f"{key}={os.environ[var]}")] guarded by [if var in os.environ]. *)
Definition print_if_set (key var : string) (environ : gmap string string)
  : list string :=
  match environ !! var with
  | Some v => [String.append key (String.append "=" v)]
  | None => []
  end.

(** [main()], with [sys.argv] and [os.environ] made explicit. *)
Definition main (argv : list string) (environ : gmap string string) : run :=
  if Nat.ltb (length argv) 2 then mkRun [] (Exited 1)
  else
    match argv with
    | [] | [_] => mkRun [] (Exited 1)
    | [_; op] =>
        if String.eqb op "get" then
          mkRun (print_if_set "username" "GIT_USERNAME" environ
                   ++ print_if_set "password" "GIT_PASSWORD" environ)
                Returned
        else mkRun [] Returned
    | _ => mkRun [] Returned
    end.

End GitCredHelper.

(** ** metamodel/cs.py: [PhysicalLink.source] and [PhysicalLink.target]

    [self.ends] is the list coupled to the [linkEnds] association of the
    link, which is declared with [fixed_length=2]; the properties index
    it, append to it and assign into it.

    Modelled from the spec: the class of the coupled list belongs to the
    runtime package [capellambse.model], which is not part of the sources
    at hand.  Reading [ends[i]] is Python's indexing and raises
    [IndexError] out of range.  A write that the fixed length forbids is
    refused before anything is changed (section 7), with a [TypeError]:
    [ends[i] = x] unless the list stays at the fixed length, and
    [ends.append(x)] when the list has that length already. *)
Module PhysicalLink.

(** [fixed_length=2] in the declaration of [ends]. *)
Definition fixed_length : nat := 2.

Section WithEnds.
(** The wrapper type of a link end ([AbstractPhysicalLinkEnd]). *)
Context {End : Type}.

(** [ends[i]] *)
Definition getitem (ends : list End) (i : nat) : exn + End :=
  match ends !! i with
  | Some e => inr e
  | None => inl IndexError
  end.

(** [ends[i] = x]: an index out of range raises [IndexError]; within
    range the assignment is refused unless the list stays at the fixed
    length. *)
Definition setitem (ends : list End) (i : nat) (x : End) : exn + list End :=
  if Nat.ltb i (length ends) then
    if Nat.eqb (length ends) fixed_length then inr (<[i := x]> ends)
    else inl (TypeError "Cannot set: List must stay at length 2")
  else inl IndexError.

(** [ends.append(x)]: refused when the list is full. *)
Definition append (ends : list End) (x : End) : exn + list End :=
  if Nat.leb fixed_length (length ends)
  then inl (TypeError "Cannot insert into a full list")
  else inr (ends ++ [x]).

(** [try: return self.ends[i]  except IndexError: return None] *)
Definition end_or_none (ends : list End) (i : nat) : option End :=
  match getitem ends i with
  | inr e => Some e
  | inl _ => None
  end.

(** The [source] property. *)
Definition source (ends : list End) : option End := end_or_none ends 0.

(** The [target] property. *)
Definition target (ends : list End) : option End := end_or_none ends 1.

(** What a setter leaves behind after a write to [ends]: the exception
    the write raised, if any, paired with the list, which a refused write
    has not changed. *)
Definition written (ends : list End) (w : exn + list End)
  : option exn * list End :=
  match w with
  | inr ends' => (None, ends')
  | inl err => (Some err, ends)
  end.

(** The [source] setter.  The result is the exception raised, if any,
    paired with the [ends] list as the call leaves it.  The message's
    [type(self).__name__] is written out for [PhysicalLink] itself. *)
Definition set_source (ends : list End) (new_end : option End)
  : option exn * list End :=
  match new_end with
  | None => (Some (TypeError "Cannot delete 'source' of PhysicalLink"), ends)
  | Some e =>
      if Nat.eqb (length ends) 0 then written ends (append ends e)
      else written ends (setitem ends 0 e)
  end.

(** The [target] setter. *)
Definition set_target (ends : list End) (new_end : option End)
  : option exn * list End :=
  match new_end with
  | None => (Some (TypeError "Cannot delete 'target' of PhysicalLink"), ends)
  | Some e =>
      if Nat.eqb (length ends) 0 then
        (Some (TypeError "Cannot set 'target' on a PhysicalLink that has no 'source'"),
         ends)
      else if Nat.eqb (length ends) 1 then written ends (append ends e)
      else written ends (setitem ends 1 e)
  end.

End WithEnds.

End PhysicalLink.

(** ** The backing tree and the model

    Modelled from the spec: the runtime package [capellambse.model] (the
    model, its identity map, the namespace registry and the descriptor
    classes) is not part of the sources at hand; only the metamodel that
    instantiates it is.  The definitions of this part follow sections 3
    and 4 of the specification. *)
Module Tree.

(** A qualified tag: namespace and local name. *)
Record QName : Type := mkQName { qn_ns : string; qn_tag : string }.

#[global] Instance QName_eq_dec : EqDecision QName.
Proof. solve_decision. Defined.

(** An attribute holds text, or references to nodes by identity. *)
Inductive AttrVal : Type :=
| Text (s : string)
| Refs (targets : list nat).

(** A backing node.  [n_group] is the fixed tag name of the child group
    the node hangs under (such as [ownedStates]); [n_type] its qualified
    tag.  Attributes and children are ordered. *)
Record Node : Type := mkNode {
  n_group : string;
  n_type : QName;
  n_attrs : list (string * AttrVal);
  n_children : list nat;
  n_parent : option nat;
  n_alive : bool
}.

(** Schema versions, compared lexicographically. *)
Definition Version : Type := nat * nat * nat.

Definition version_le (a b : Version) : bool :=
  let '(a1, a2, a3) := a in
  let '(b1, b2, b3) := b in
  Nat.ltb a1 b1
  || (Nat.eqb a1 b1 && (Nat.ltb a2 b2 || (Nat.eqb a2 b2 && Nat.leb a3 b3))).

(** A wrapper class as the registry knows it: its name and the finite
    list of qualified tags it "is a" (itself included). *)
Record ClassInfo : Type := mkClass { c_name : string; c_isa : list QName }.

(** One registration: a tag of a namespace, bound to a class over a range
    of versions ([r_hi = None]: no upper bound). *)
Record RegEntry : Type := mkReg {
  r_qname : QName;
  r_lo : Version;
  r_hi : option Version;
  r_class : ClassInfo
}.

Definition in_range (v : Version) (e : RegEntry) : bool :=
  version_le (r_lo e) v
  && match r_hi e with Some hi => version_le v hi | None => true end.

(** [resolve(namespace, tag, modelVersion)]: the class bound to the tag in
    that namespace at that version, if any. *)
Definition resolve_type (registry : list RegEntry) (q : QName) (v : Version)
  : option ClassInfo :=
  r_class <$> List.find (fun e => bool_decide (r_qname e = q) && in_range v e)
                        registry.

(** A wrapper: the node it stands for, its class, and whether it is still
    valid (wrappers are invalidated, not freed). *)
Record Wrapper : Type := mkWrapper {
  w_node : nat;
  w_class : string;
  w_valid : bool
}.

(** The model: the tree (a store of nodes by identity, and the root), the
    schema version and registry, the identity map from node identity to
    wrapper identity, and the wrappers constructed so far. *)
Record Model : Type := mkModel {
  m_nodes : gmap nat Node;
  m_root : nat;
  m_version : Version;
  m_registry : list RegEntry;
  m_idmap : gmap nat nat;
  m_wrappers : gmap nat Wrapper
}.

Definition with_nodes (f : gmap nat Node -> gmap nat Node) (st : Model) : Model :=
  mkModel (f (m_nodes st)) (m_root st) (m_version st) (m_registry st)
          (m_idmap st) (m_wrappers st).

Definition with_identity (idmap : gmap nat nat) (ws : gmap nat Wrapper)
  (st : Model) : Model :=
  mkModel (m_nodes st) (m_root st) (m_version st) (m_registry st) idmap ws.

(** A freshly loaded document: no wrapper exists yet. *)
Definition load (nodes : gmap nat Node) (root : nat) (v : Version)
  (registry : list RegEntry) : Model :=
  mkModel nodes root v registry ∅ ∅.

(** The result of an operation: a value, or a raised exception; either
    way together with the model as the operation leaves it. *)
Inductive Outcome (A : Type) : Type :=
| Ok (a : A) (st : Model)
| Raise (e : exn) (st : Model).
Arguments Ok {A} a st.
Arguments Raise {A} e st.

Definition state_of {A} (o : Outcome A) : Model :=
  match o with Ok _ st => st | Raise _ st => st end.

(** Operations thread the model and may raise. *)
Definition M (A : Type) : Type := Model -> Outcome A.

Definition ret {A} (a : A) : M A := fun st => Ok a st.
Definition raise {A} (e : exn) : M A := fun st => Raise e st.
Definition bind {A B} (m : M A) (k : A -> M B) : M B :=
  fun st => match m st with
            | Ok a st' => k a st'
            | Raise e st' => Raise e st'
            end.
Definition get_model : M Model := fun st => Ok st st.
Definition modify (f : Model -> Model) : M unit := fun st => Ok tt (f st).

(** The node with identity [n], while it exists in the tree. *)
Definition live_node (st : Model) (n : nat) : option Node :=
  match m_nodes st !! n with
  | Some nd => if n_alive nd then Some nd else None
  | None => None
  end.

(** The class of a node: its tag resolved at the model's version. *)
Definition class_of_node (st : Model) (nd : Node) : option ClassInfo :=
  resolve_type (m_registry st) (n_type nd) (m_version st).

(** Does the node satisfy a type constraint (the constraint's own type or
    a subtype of it)?  A node of an unregistered type satisfies none. *)
Definition matches_type (st : Model) (q : QName) (nd : Node) : bool :=
  match class_of_node st nd with
  | Some c => bool_decide (n_type nd = q) || bool_decide (q ∈ c_isa c)
  | None => false
  end.

Definition node_matches (st : Model) (q : QName) (n : nat) : bool :=
  match m_nodes st !! n with
  | Some nd => matches_type st q nd
  | None => false
  end.

(** The nodes of the subtree below [n], [n] first, in document order.
    The walk is bounded by [fuel] levels. *)
Fixpoint subtree (fuel : nat) (nodes : gmap nat Node) (n : nat) : list nat :=
  match fuel with
  | O => []
  | S k =>
      n :: match nodes !! n with
           | Some nd => flat_map (subtree k nodes) (n_children nd)
           | None => []
           end
  end.

(** A tree of [size] nodes is at most [size] levels deep. *)
Definition depth_bound (st : Model) : nat := S (size (m_nodes st)).

(** [search(model, typeConstraint, scope?)]: depth-first, document-order
    traversal from the root, or from [below] when given, keeping the
    nodes that satisfy the constraint. *)
Definition search (st : Model) (q : QName) (below : option nat) : list nat :=
  List.filter (node_matches st q)
         (subtree (depth_bound st) (m_nodes st) (default (m_root st) below)).

(** Replace the record of node [n]. *)
Definition update_node (n : nat) (f : Node -> Node) (st : Model) : Model :=
  with_nodes (alter f n) st.

Definition set_children (cs : list nat) (nd : Node) : Node :=
  mkNode (n_group nd) (n_type nd) (n_attrs nd) cs (n_parent nd) (n_alive nd).

Definition set_attrs (attrs : list (string * AttrVal)) (nd : Node) : Node :=
  mkNode (n_group nd) (n_type nd) attrs (n_children nd) (n_parent nd) (n_alive nd).

(** A node taken out of the tree: no parent any more, and destroyed. *)
Definition kill (nd : Node) : Node :=
  mkNode (n_group nd) (n_type nd) (n_attrs nd) (n_children nd) None false.

(** The reference list stored under an attribute name; an absent
    attribute, or one holding text, stands for no reference. *)
Fixpoint lookup_attr (name : string) (attrs : list (string * AttrVal))
  : option AttrVal :=
  match attrs with
  | [] => None
  | (k, v) :: rest => if String.eqb k name then Some v else lookup_attr name rest
  end.

Definition refs_of (name : string) (nd : Node) : list nat :=
  match lookup_attr name (n_attrs nd) with
  | Some (Refs l) => l
  | _ => []
  end.

(** Set an attribute in place, keeping the attribute order; a new
    attribute goes last. *)
Fixpoint put_attr (name : string) (v : AttrVal) (attrs : list (string * AttrVal))
  : list (string * AttrVal) :=
  match attrs with
  | [] => [(name, v)]
  | (k, w) :: rest =>
      if String.eqb k name then (k, v) :: rest else (k, w) :: put_attr name v rest
  end.

Definition drop_attr (name : string) (attrs : list (string * AttrVal))
  : list (string * AttrVal) :=
  List.filter (fun kv => negb (String.eqb (fst kv) name)) attrs.

(** Store a reference list: an empty list removes the attribute. *)
Definition store_refs (name : string) (l : list nat) (nd : Node) : Node :=
  match l with
  | [] => set_attrs (drop_attr name (n_attrs nd)) nd
  | _ => set_attrs (put_attr name (Refs l) (n_attrs nd)) nd
  end.

End Tree.

(** ** The identity map (section 4.2)

    Modelled from the spec: [get_or_create] and [invalidate] of the
    identity map, which the sources at hand do not contain. *)
Module IdentityMap.
Import Tree.

(** [get_or_create(node)]: the entry of the node if there is one;
    otherwise the node's type is resolved through the registry, a wrapper
    is constructed, stored and returned.  A node that is not (or no
    longer) in the tree cannot be resolved. *)
Definition get_or_create (n : nat) : M nat := fun st =>
  match m_idmap st !! n with
  | Some w => Ok w st
  | None =>
      match live_node st n with
      | None => Raise DanglingReferenceError st
      | Some nd =>
          match class_of_node st nd with
          | None => Raise UnknownType st
          | Some c =>
              let w := fresh (dom (m_wrappers st)) in
              Ok w (with_identity
                      (<[n := w]> (m_idmap st))
                      (<[w := mkWrapper n (c_name c) true]> (m_wrappers st))
                      st)
          end
      end
  end.

Definition invalidated (w : Wrapper) : Wrapper :=
  mkWrapper (w_node w) (w_class w) false.

(** Drop the entry of one node, invalidating its wrapper. *)
Definition invalidate_node (st : Model) (n : nat) : Model :=
  with_identity
    (delete n (m_idmap st))
    (match m_idmap st !! n with
     | Some w => alter invalidated w (m_wrappers st)
     | None => m_wrappers st
     end)
    st.

(** [invalidate(node)]: walk the subtree once, invalidating each node. *)
Definition invalidate (n : nat) (st : Model) : Model :=
  foldl invalidate_node st (subtree (depth_bound st) (m_nodes st) n).

(** The wrapper [w] is a live wrapper of node [n]. *)
Definition live_wrapper (st : Model) (w n : nat) : Prop :=
  exists wr, m_wrappers st !! w = Some wr /\ w_node wr = n /\ w_valid wr = true.

(** Resolve every member of a list of nodes, in order. *)
Fixpoint resolve_all (ns : list nat) : M (list nat) :=
  match ns with
  | [] => ret []
  | n :: rest =>
      bind (get_or_create n) (fun w =>
      bind (resolve_all rest) (fun ws => ret (w :: ws)))
  end.

End IdentityMap.

(** Taking a subtree out of the tree: the child leaves its owner's
    children, the identity map forgets the subtree, and the nodes of the
    subtree are destroyed. *)
Module Detach.
Import Tree IdentityMap.

Definition remove_child (child : nat) (nd : Node) : Node :=
  set_children (List.filter (fun c => negb (Nat.eqb c child)) (n_children nd)) nd.

Definition destroy (doomed : list nat) (st : Model) : Model :=
  with_nodes (fun nodes => foldr (alter kill) nodes doomed) st.

Definition detach (owner child : nat) (st : Model) : Model :=
  let doomed := subtree (depth_bound st) (m_nodes st) child in
  update_node owner (remove_child child)
    (destroy doomed (invalidate child st)).

End Detach.

(** ** Containment (section 4.4)

    Modelled from the spec: the [Containment] descriptor, which the
    sources at hand only instantiate, as in
    [Containment("ownedStates", (NS, "AbstractState"))]. *)
Module Containment.
Import Tree IdentityMap Detach.

(** The child group the relation reads and writes, and the type its
    members must have. *)
Record spec : Type := mkContainment { ct_group : string; ct_class : QName }.

(** Is [c] a child in the relation's group and of the relation's type? *)
Definition child_matches (st : Model) (sp : spec) (c : nat) : bool :=
  match m_nodes st !! c with
  | Some nd => String.eqb (n_group nd) (ct_group sp) && matches_type st (ct_class sp) nd
  | None => false
  end.

Definition children_of (st : Model) (owner : nat) : list nat :=
  match m_nodes st !! owner with
  | Some nd => n_children nd
  | None => []
  end.

(** [get(owner)]: the owner's matching children, in child order. *)
Definition get (st : Model) (sp : spec) (owner : nat) : list nat :=
  List.filter (child_matches st sp) (children_of st owner).


(** The place of a new member: right after the last matching child; at
    the end when no child matches. *)
Fixpoint insert_after_last_match (p : nat -> bool) (x : nat) (l : list nat)
  : list nat :=
  match l with
  | [] => [x]
  | y :: rest =>
      if existsb p rest then y :: insert_after_last_match p x rest
      else if p y then y :: x :: rest
      else y :: rest ++ [x]
  end.

(** May a node of type [ty] be a member?  It must be of a registered type
    that satisfies the relation's constraint. *)
Definition admits (st : Model) (sp : spec) (ty : QName) : option exn :=
  match resolve_type (m_registry st) ty (m_version st) with
  | None => Some UnknownType
  | Some c =>
      if bool_decide (ty = ct_class sp) || bool_decide (ct_class sp ∈ c_isa c)
      then None
      else Some (TypeError "wrong type for this relation")
  end.

(** [append(owner, spec)]: create a node of type [ty], with the given
    attributes, under [owner] at the end of the matching children; the
    result is the new node.  Type violations are rejected before the tree
    is touched. *)
Definition append (sp : spec) (owner : nat) (ty : QName)
  (attrs : list (string * AttrVal)) : M nat := fun st =>
  match live_node st owner with
  | None => Raise DanglingReferenceError st
  | Some ond =>
      match admits st sp ty with
      | Some e => Raise e st
      | None =>
          let new := fresh (dom (m_nodes st)) in
          let nd := mkNode (ct_group sp) ty attrs [] (Some owner) true in
          let cs := insert_after_last_match (child_matches st sp) new (n_children ond) in
          Ok new (with_nodes (fun nodes => <[new := nd]> (alter (set_children cs) owner nodes)) st)
      end
  end.

(** [remove(owner, child)]: detach a member from its owner. *)
Definition remove (sp : spec) (owner child : nat) : M unit := fun st =>
  if existsb (Nat.eqb child) (get st sp owner)
  then Ok tt (detach owner child st)
  else Raise ValueError st.

End Containment.

(** ** Association (section 4.5)

    Modelled from the spec: the [Association] descriptor, instantiated in
    the sources as in
    [Association((NS, "AbstractPhysicalLinkEnd"), "linkEnds", fixed_length=2)]. *)
Module Association.
Import Tree.

(** The type of the referenced nodes, the attribute holding the
    references, and the greatest number of members, if bounded. *)
Record spec : Type := mkAssociation {
  as_class : QName;
  as_attr : string;
  as_fixed_length : option nat
}.

(** [get(owner)]: the stored references, in order.  A reference is
    handed out whether or not its node still exists. *)
Definition get (st : Model) (sp : spec) (owner : nat) : list nat :=
  match m_nodes st !! owner with
  | Some nd => refs_of (as_attr sp) nd
  | None => []
  end.

Definition within_bound (sp : spec) (len : nat) : bool :=
  match as_fixed_length sp with
  | Some k => Nat.leb len k
  | None => true
  end.

(** [set(owner, members)]: validate, then store the reference list. *)
Definition set (sp : spec) (owner : nat) (members : list nat) : M unit := fun st =>
  match live_node st owner with
  | None => Raise DanglingReferenceError st
  | Some _ =>
      if negb (forallb (node_matches st (as_class sp)) members)
      then Raise (TypeError "wrong type for this relation") st
      else if negb (within_bound sp (length members))
      then Raise CardinalityError st
      else Ok tt (update_node owner (store_refs (as_attr sp) members) st)
  end.

(** [append(owner, target)] *)
Definition append (sp : spec) (owner target : nat) : M nat := fun st =>
  match set sp owner (get st sp owner ++ [target]) st with
  | Ok _ st' => Ok target st'
  | Raise e st' => Raise e st'
  end.

(** Drop the first occurrence of [x]. *)
Fixpoint remove_first (x : nat) (l : list nat) : list nat :=
  match l with
  | [] => []
  | y :: rest => if Nat.eqb y x then rest else y :: remove_first x rest
  end.

(** [remove(owner, target)]: the reference goes, the node stays. *)
Definition remove (sp : spec) (owner target : nat) : M unit := fun st =>
  if existsb (Nat.eqb target) (get st sp owner)
  then set sp owner (remove_first target (get st sp owner)) st
  else Raise ValueError st.

End Association.

(** ** Allocation (section 4.7)

    Modelled from the spec: the [Allocation] descriptor, instantiated in
    the sources as in
    [Allocation("ownedFunctionalAllocation",
                (NS, "ComponentFunctionalAllocation"),
                (NS, "AbstractFunction"),
                attr="targetElement", backattr="sourceElement")]. *)
Module Allocation.
Import Tree IdentityMap Detach.

(** The child group and type of the link nodes, the type of the logical
    targets, the link attribute referring to the target, and the link
    attribute referring back to the source, if one is configured. *)
Record spec : Type := mkAllocation {
  al_group : string;
  al_link : QName;
  al_class : QName;
  al_attr : string;
  al_backattr : option string
}.

Definition link_spec (sp : spec) : Containment.spec :=
  Containment.mkContainment (al_group sp) (al_link sp).

(** The link nodes the owner owns for this relation. *)
Definition links (st : Model) (sp : spec) (owner : nat) : list nat :=
  Containment.get st (link_spec sp) owner.

(** What a link node refers to as its target. *)
Definition link_targets (st : Model) (sp : spec) (link : nat) : list nat :=
  match m_nodes st !! link with
  | Some nd => refs_of (al_attr sp) nd
  | None => []
  end.

(** [get(owner)]: enumerate the owned link nodes, then follow each
    link's target reference. *)
Definition get (st : Model) (sp : spec) (owner : nat) : list nat :=
  flat_map (link_targets st sp) (links st sp owner).

(** The reference attributes of a new link node: the source reference,
    when a [backattr] is configured, and the target reference. *)
Definition link_attrs (sp : spec) (owner target : nat) : list (string * AttrVal) :=
  match al_backattr sp with
  | Some b => [(b, Refs [owner])]
  | None => []
  end ++ [(al_attr sp, Refs [target])].

(** [append(owner, target)]: create a link node under [owner] and set its
    reference attributes; the result is the logical target. *)
Definition append (sp : spec) (owner target : nat) : M nat := fun st =>
  if negb (node_matches st (al_class sp) target)
  then Raise (TypeError "wrong type for this relation") st
  else
    match Containment.append (link_spec sp) owner (al_link sp)
                             (link_attrs sp owner target) st with
    | Ok _ st' => Ok target st'
    | Raise e st' => Raise e st'
    end.

(** [remove(owner, target)]: locate the link node whose target matches
    and remove that link node. *)
Definition remove (sp : spec) (owner target : nat) : M unit := fun st =>
  match List.find (fun l => existsb (Nat.eqb target) (link_targets st sp l))
                  (links st sp owner) with
  | Some l => Ok tt (detach owner l st)
  | None => Raise ValueError st
  end.

End Allocation.

(** ** Computed descriptors (sections 4.6 and 4.8)

    Modelled from the spec: [Backref], [Filter], [Single], [Alias] and
    [DeprecatedAccessor], which the sources at hand only instantiate.
    They are written against the attribute dispatch of the wrappers,
    [getattr], as the Python descriptors are. *)
Module Descriptors.
Import Tree.

(** A warning: its category and its message. *)
Record Warning : Type := mkWarning { wn_category : string; wn_message : string }.

(** What reading a field yields: a collection, one element, the absent
    value, or a scalar. *)
Inductive value : Type :=
| VList (l : list nat)
| VElem (n : nat)
| VNone
| VBool (b : bool).

(** A read: the warnings it logged, in order, and the value it returned
    or the exception it raised. *)
Record reading (A : Type) : Type := mkReading {
  r_warnings : list Warning;
  r_result : exn + A
}.
Arguments mkReading {A} r_warnings r_result.
Arguments r_warnings {A} r.
Arguments r_result {A} r.

Definition rret {A} (a : A) : reading A := mkReading [] (inr a).
Definition rraise {A} (e : exn) : reading A := mkReading [] (inl e).
Definition rbind {A B} (r : reading A) (k : A -> reading B) : reading B :=
  match r_result r with
  | inl e => mkReading (r_warnings r) (inl e)
  | inr a => mkReading (r_warnings r ++ r_warnings (k a)) (r_result (k a))
  end.

(** [warnings.warn(message, category)] before the rest of the read. *)
Definition rwarn {A} (w : Warning) (r : reading A) : reading A :=
  mkReading (w :: r_warnings r) (r_result r).

(** The members a read stands for as a relation: those of a collection,
    the one element, none otherwise. *)
Definition members (r : reading value) : list nat :=
  match r_result r with
  | inr (VList l) => l
  | inr (VElem n) => [n]
  | _ => []
  end.

(** Split a dotted path such as [source.owner] into its attribute names. *)
Fixpoint dotted_from (acc : string) (s : string) : list string :=
  match s with
  | EmptyString => [acc]
  | String c rest =>
      if Ascii.eqb c "."%char then acc :: dotted_from EmptyString rest
      else dotted_from (String.append acc (String c EmptyString)) rest
  end.

Definition dotted (s : string) : list string := dotted_from EmptyString s.

(** The configuration of a [Backref]: the declared source type of the
    forward relation, and the forward paths to invert. *)
Record backref_spec : Type := mkBackref { br_class : QName; br_attrs : list string }.

(** The configuration of a [Filter]: the field it views and the type it
    keeps. *)
Record filter_spec : Type := mkFilter { fl_attr : string; fl_class : QName }.

Section Dispatch.
(** The attribute dispatch of the wrapper classes: reading field [name]
    of the wrapper of node [n]. *)
Variable getattr : Model -> nat -> string -> reading value.

(** Follow attribute names one after the other, from a set of start
    nodes. *)
Fixpoint follow_names (st : Model) (names : list string) (from : list nat)
  : list nat :=
  match names with
  | [] => from
  | a :: rest =>
      follow_names st rest (flat_map (fun x => members (getattr st x a)) from)
  end.

(** The result of following the forward path [p] starting at [b]. *)
Definition follow (st : Model) (b : nat) (p : string) : list nat :=
  follow_names st (dotted p) [b].

(** The result of following any of several forward paths: the union. *)
Definition follow_any (st : Model) (b : nat) (ps : list string) : list nat :=
  flat_map (follow st b) ps.

(** Does some forward path of the candidate evaluate to the target?  The
    paths are tried in turn. *)
Definition refers_to (st : Model) (ps : list string) (target cand : nat) : bool :=
  existsb (fun p => existsb (Nat.eqb target) (follow st cand p)) ps.

(** [Backref.get(target)]: scan the scope of the declared source type,
    keeping every candidate one of whose forward paths evaluates to the
    target.  Nothing is written. *)
Definition Backref_get (sp : backref_spec) (st : Model) (target : nat) : list nat :=
  List.filter (refers_to st (br_attrs sp) target) (search st (br_class sp) None).

(** [Filter.get(owner)]: the viewed field, restricted to the members of
    the stated type. *)
Definition Filter_get (sp : filter_spec) (st : Model) (owner : nat) : reading value :=
  rbind (getattr st owner (fl_attr sp)) (fun v =>
    match v with
    | VList l => rret (VList (List.filter (node_matches st (fl_class sp)) l))
    | VElem n => rret (if node_matches st (fl_class sp) n then VElem n else VNone)
    | other => rret other
    end).

(** [Single.get(owner)] over the members its inner relation reads: the
    sole member, the absent value, or an ambiguity error. *)
Definition Single_of (l : list nat) : reading value :=
  match l with
  | [] => rret VNone
  | [x] => rret (VElem x)
  | _ => rraise AmbiguousResultError
  end.

(** [Alias.get(owner)]: the aliased field, read under the second name. *)
Definition Alias_get (target : string) (st : Model) (owner : nat) : reading value :=
  getattr st owner target.

(** The warning a deprecated field name logs. *)
Definition deprecation (name alternative : string) : Warning :=
  mkWarning "FutureWarning"
    (String.append name (String.append " is deprecated, use "
       (String.append alternative " instead"))).

(** [DeprecatedAccessor.get(owner)]: log a warning, then read the
    replacement field. *)
Definition DeprecatedAccessor_get (name alternative : string) (st : Model)
  (owner : nat) : reading value :=
  rwarn (deprecation name alternative) (getattr st owner alternative).

End Dispatch.

(** The descriptors a class can bind to a field name. *)
Inductive descriptor : Type :=
| DContainment (sp : Containment.spec)
| DAssociation (sp : Association.spec)
| DAllocation (sp : Allocation.spec)
| DBackref (sp : backref_spec)
| DFilter (sp : filter_spec)
| DSingle (inner : descriptor)
| DAlias (target : string)
| DDeprecated (alternative : string)
| DParent
| DBoolPOD (attr : string).

(** The boolean scalar stored under an attribute: [true] for the text
    "true", [false] for anything else and for an absent attribute. *)
Definition bool_pod (attr : string) (nd : Node) : bool :=
  match lookup_attr attr (n_attrs nd) with
  | Some (Text s) => String.eqb s "true"
  | _ => false
  end.

(** Reading a descriptor on the wrapper of [owner], given the dispatch
    for the fields it refers to by name. *)
Fixpoint read_descriptor (getattr : Model -> nat -> string -> reading value)
  (name : string) (d : descriptor) (st : Model) (owner : nat) : reading value :=
  match d with
  | DContainment sp => rret (VList (Containment.get st sp owner))
  | DAssociation sp => rret (VList (Association.get st sp owner))
  | DAllocation sp => rret (VList (Allocation.get st sp owner))
  | DBackref sp => rret (VList (Backref_get getattr sp st owner))
  | DFilter sp => Filter_get getattr sp st owner
  | DSingle inner =>
      rbind (read_descriptor getattr name inner st owner) (fun v =>
        match v with
        | VList l => Single_of l
        | other => rret other
        end)
  | DAlias target => Alias_get getattr target st owner
  | DDeprecated alternative => DeprecatedAccessor_get getattr name alternative st owner
  | DParent =>
      rret (match m_nodes st !! owner with
            | Some nd => match n_parent nd with Some p => VElem p | None => VNone end
            | None => VNone
            end)
  | DBoolPOD attr =>
      rret (VBool (match m_nodes st !! owner with
                   | Some nd => bool_pod attr nd
                   | None => false
                   end))
  end.

(** The binding table of a schema: for each class name, the descriptors
    its wrappers carry, by field name. *)
Definition Schema : Type := list (string * list (string * descriptor)).

Fixpoint assoc {A} (k : string) (l : list (string * A)) : option A :=
  match l with
  | [] => None
  | (k', v) :: rest => if String.eqb k' k then Some v else assoc k rest
  end.

(** The fields of the class of node [n]. *)
Definition fields_of (schema : Schema) (st : Model) (n : nat)
  : option (list (string * descriptor)) :=
  match m_nodes st !! n with
  | Some nd =>
      match class_of_node st nd with
      | Some c => assoc (c_name c) schema
      | None => None
      end
  | None => None
  end.

(** Where a field name leads once aliases and deprecated names are
    followed: to a descriptor that is read, to a name the class does not
    have, or nowhere, when the names lead in a circle. *)
Inductive resolution : Type :=
| Found (name : string) (d : descriptor)
| Missing (name : string)
| Cyclic.

(** Follow [Alias] and [DeprecatedAccessor] bindings from [name], for at
    most [k] steps, collecting the warnings of the deprecated names
    passed. *)
Fixpoint chase (fields : list (string * descriptor)) (k : nat) (name : string)
  : list Warning * resolution :=
  match k with
  | O => ([], Cyclic)
  | S k' =>
      match assoc name fields with
      | Some (DAlias target) => chase fields k' target
      | Some (DDeprecated alternative) =>
          let (ws, r) := chase fields k' alternative in
          (deprecation name alternative :: ws, r)
      | Some d => ([], Found name d)
      | None => ([], Missing name)
      end
  end.

(** A chain of names that ends is no longer than the table of fields. *)
Definition resolve_name (fields : list (string * descriptor)) (name : string)
  : list Warning * resolution :=
  chase fields (S (length fields)) name.

(** Attribute dispatch through the binding table.  The field name is
    resolved, then its descriptor is read; a descriptor that reads
    another field by name ([Backref], [Filter]) dispatches again, one
    level deeper, and [depth] bounds that nesting as the interpreter's
    recursion limit does. *)
Fixpoint getattr (schema : Schema) (depth : nat) (st : Model) (n : nat)
  (name : string) : reading value :=
  match depth with
  | O => rraise RecursionError
  | S k =>
      match fields_of schema st n with
      | None => rraise (AttributeError name)
      | Some fields =>
          let (ws, r) := resolve_name fields name in
          let rd := match r with
                    | Found nm d => read_descriptor (getattr schema k) nm d st n
                    | Missing nm => rraise (AttributeError nm)
                    | Cyclic => rraise RecursionError
                    end in
          mkReading (ws ++ r_warnings rd) (r_result rd)
      end
  end.

End Descriptors.

(** ** Single (section 4.8, invariant I6)

    Modelled from the spec: the [Single] wrapper over a stored relation,
    instantiated in the sources as in
    [Single(Association((NS, "AbstractType"), "abstractType"))]. *)
Module Single.
Import Tree Descriptors.

(** What [Single] needs of the relation it wraps: reading the members,
    appending one, and replacing them all. *)
Record relation : Type := mkRelation {
  rel_get : Model -> nat -> list nat;
  rel_append : nat -> nat -> M nat;
  rel_write : nat -> list nat -> M unit
}.

(** The relation of an [Association]. *)
Definition of_association (sp : Association.spec) : relation :=
  mkRelation (fun st => Association.get st sp)
             (Association.append sp)
             (Association.set sp).

(** What the wrapped relation must guarantee: a successful append adds
    the member at the end, a successful write leaves exactly the members
    written, and a failed operation leaves the model as it was. *)
Record lawful (R : relation) : Prop := mkLawful {
  append_adds : forall st o x y st',
    rel_append R o x st = Ok y st' -> rel_get R st' o = rel_get R st o ++ [x];
  append_atomic : forall st o x e st',
    rel_append R o x st = Raise e st' -> st' = st;
  write_replaces : forall st o l u st',
    rel_write R o l st = Ok u st' -> rel_get R st' o = l;
  write_atomic : forall st o l e st',
    rel_write R o l st = Raise e st' -> st' = st
}.

(** Reading: the sole member, the absent value, or an ambiguity error. *)
Definition get (R : relation) (st : Model) (owner : nat) : reading value :=
  Single_of (rel_get R st owner).

(** Appending: refused, before anything is written, when a member is
    already there. *)
Definition append (R : relation) (owner x : nat) : M nat := fun st =>
  match rel_get R st owner with
  | [] => rel_append R owner x st
  | _ => Raise CardinalityError st
  end.

(** Writing replaces the member, if any. *)
Definition write (R : relation) (owner x : nat) : M unit :=
  rel_write R owner [x].

(** Clearing; a relation declared mandatory cannot be cleared. *)
Definition clear (R : relation) (mandatory : bool) (owner : nat) : M unit := fun st =>
  if mandatory then Raise StructuralInvariantError st
  else rel_write R owner [] st.

(** The mutations a [Single] binding offers. *)
Inductive mutation : Type :=
| Append (x : nat)
| Write (x : nat)
| Clear.

Definition mutate (R : relation) (mandatory : bool) (owner : nat) (mu : mutation)
  (st : Model) : Outcome unit :=
  match mu with
  | Append x =>
      match append R owner x st with
      | Ok _ st' => Ok tt st'
      | Raise e st' => Raise e st'
      end
  | Write x => write R owner x st
  | Clear => clear R mandatory owner st
  end.

End Single.

(** ** Hand-written properties of the metamodel classes *)
Module Metamodel.
Import Tree Descriptors.

Definition NS_CAPELLACOMMON : string := "org.polarsys.capella.core.data.capellacommon".
Definition NS_OA : string := "org.polarsys.capella.core.data.oa".
Definition NS_SA : string := "org.polarsys.capella.core.data.ctx".
Definition NS_FA : string := "org.polarsys.capella.core.data.fa".

Section Properties.
Variable getattr : Model -> nat -> string -> reading value.

(** fa.py, [_AbstractExchange.source]: the property only raises. *)
Definition AbstractExchange_source (st : Model) (self : nat) : reading value :=
  rraise (TypeError
    "AbstractExchange is deprecated and will be removed soon, use the concrete FunctionalExchange or ComponentExchange class or another common superclass instead").

(** capellacommon.py, [Region.__modes = Filter("states", (NS, "Mode"))]. *)
Definition Region_modes_filter : filter_spec :=
  mkFilter "states" (mkQName NS_CAPELLACOMMON "Mode").

(** capellacommon.py, [Region.modes]: warn, then return [self.__modes]. *)
Definition Region_modes (st : Model) (self : nat) : reading value :=
  rwarn (mkWarning "DeprecationWarning"
           "Region.modes is deprecated, use states instead (note that states may only contain either States or Modes)")
        (Filter_get getattr Region_modes_filter st self).

(** [len(x)] of a value read from a field. *)
Definition len (v : value) : reading nat :=
  match v with
  | VList l => rret (length l)
  | _ => rraise (TypeError "object has no len()")
  end.

(** [x[0]] of a value read from a field. *)
Definition first (v : value) : reading nat :=
  match v with
  | VList (x :: _) => rret x
  | VList [] => rraise IndexError
  | _ => rraise (TypeError "object is not subscriptable")
  end.

(** oa.py, [OperationalAnalysis.root_activity].  The [deprecated]
    decorator warns on every call. *)
Definition root_activity (st : Model) (self : nat) : reading nat :=
  rwarn (mkWarning "FutureWarning"
           "OperationalActivity.root_activity can only handle a single OperationalActivity, use .activity_pkg.activities directly instead")
    (rbind (getattr st self "activity_pkg") (fun pkg =>
       match pkg with
       | VNone => rraise (BrokenModelError "OperationalAnalysis has no root ActivityPkg")
       | VElem p =>
           if negb (node_matches st (mkQName NS_OA "OperationalActivityPkg") p)
           then rraise AssertionError
           else
             rbind (getattr st p "activities") (fun candidates =>
             rbind (len candidates) (fun n =>
               if Nat.ltb n 1 then
                 rraise (BrokenModelError "ActivityPkg does not contain any Activities")
               else if Nat.ltb 1 n then
                 rraise (RuntimeError
                   (String.append
                      "Expected 1 object for OperationalAnalysis.root_activity, got "
                      (pretty n)))
               else first candidates))
       | _ => rraise AssertionError
       end)).

(** [ElementList.by_<attr>(value, single=...)] for a boolean attribute:
    keep the members whose attribute reads as [expected]. *)
Fixpoint by_bool (st : Model) (attr : string) (expected : bool) (l : list nat)
  : reading (list nat) :=
  match l with
  | [] => rret []
  | x :: rest =>
      rbind (getattr st x attr) (fun v =>
      rbind (by_bool st attr expected rest) (fun kept =>
        match v with
        | VBool b => rret (if Bool.eqb b expected then x :: kept else kept)
        | _ => rret kept
        end))
  end.

(** The [single]-expecting accessor: exactly one match, or an error. *)
Definition single (l : list nat) : reading nat :=
  match l with
  | [x] => rret x
  | _ => rraise AmbiguousResultError
  end.

(** sa.py, [SystemAnalysis.root_component]. *)
Definition root_component (st : Model) (self : nat) : reading nat :=
  rbind (getattr st self "component_pkg") (fun pkg =>
    match pkg with
    | VNone => rraise (BrokenModelError "No root SystemComponentPkg found")
    | _ =>
        rbind (getattr st self "component_pkg") (fun pkg' =>
          match pkg' with
          | VElem p =>
              rbind (getattr st p "components") (fun cs =>
                match cs with
                | VList l => rbind (by_bool st "is_actor" false l) single
                | _ => rraise (AttributeError "by_is_actor")
                end)
          | _ => rraise (AttributeError "components")
          end)
    end).

End Properties.

End Metamodel.

(** ** A session: sequences of binding operations on one model *)
Module Session.
Import Tree IdentityMap.

(** The operations a caller can perform through the bindings.  The
    mutating ones hand back the wrapper of the node concerned, resolved
    through the identity map. *)
Inductive op : Type :=
| Resolve (n : nat)
| ContainmentAppend (sp : Containment.spec) (owner : nat) (ty : QName)
                    (attrs : list (string * AttrVal))
| ContainmentRemove (sp : Containment.spec) (owner child : nat)
| AssociationSet (sp : Association.spec) (owner : nat) (members : list nat)
| AssociationAppend (sp : Association.spec) (owner target : nat)
| AssociationRemove (sp : Association.spec) (owner target : nat)
| AllocationAppend (sp : Allocation.spec) (owner target : nat)
| AllocationRemove (sp : Allocation.spec) (owner target : nat).

(** The model after one operation, whether it returned or raised. *)
Definition step (st : Model) (o : op) : Model :=
  match o with
  | Resolve n => state_of (get_or_create n st)
  | ContainmentAppend sp owner ty attrs =>
      state_of (bind (Containment.append sp owner ty attrs) get_or_create st)
  | ContainmentRemove sp owner child =>
      state_of (Containment.remove sp owner child st)
  | AssociationSet sp owner members =>
      state_of (Association.set sp owner members st)
  | AssociationAppend sp owner target =>
      state_of (bind (Association.append sp owner target) get_or_create st)
  | AssociationRemove sp owner target =>
      state_of (Association.remove sp owner target st)
  | AllocationAppend sp owner target =>
      state_of (bind (Allocation.append sp owner target) get_or_create st)
  | AllocationRemove sp owner target =>
      state_of (Allocation.remove sp owner target st)
  end.

Definition run (ops : list op) (st : Model) : Model := foldl step st ops.

(** The identity map and the wrappers agree: a node's entry is its one
    valid wrapper, and only nodes of the tree have entries. *)
Definition consistent (st : Model) : Prop :=
  (forall n w, m_idmap st !! n = Some w <-> live_wrapper st w n)
  /\ (forall n w, m_idmap st !! n = Some w -> is_Some (live_node st n)).

(** The node was in the tree and has been destroyed. *)
Definition dead (st : Model) (n : nat) : Prop :=
  exists nd, m_nodes st !! n = Some nd /\ n_alive nd = false.

(** What every operation guarantees of the model it leaves: agreement
    of map and wrappers is kept; an entry stays unless its node is
    destroyed; and a destroyed node stays destroyed. *)
Definition evolves (st st' : Model) : Prop :=
  (consistent st -> consistent st')
  /\ (consistent st -> forall n w,
        m_idmap st !! n = Some w -> m_idmap st' !! n = Some w \/ dead st' n)
  /\ (forall n, dead st n -> dead st' n).

(** A change of the tree that leaves the identity map alone, loses no
    node and neither destroys nor revives one. *)
Definition grows (st st' : Model) : Prop :=
  m_idmap st' = m_idmap st
  /\ m_wrappers st' = m_wrappers st
  /\ (forall n nd, m_nodes st !! n = Some nd ->
        exists nd', m_nodes st' !! n = Some nd' /\ n_alive nd' = n_alive nd).

End Session.

(** ** Small models used to exercise the definitions *)
Module Examples.
Import Tree Descriptors Metamodel.

(** A registration from version 7.0.0 on, as every namespace of the
    metamodel declares. *)
Definition since_7 (q : QName) (supers : list QName) : RegEntry :=
  mkReg q (7, 0, 0) None (mkClass (qn_tag q) (q :: supers)).

Definition cc (tag : string) : QName := mkQName NS_CAPELLACOMMON tag.
Definition fa (tag : string) : QName := mkQName NS_FA tag.
Definition oa (tag : string) : QName := mkQName NS_OA tag.
Definition sa (tag : string) : QName := mkQName NS_SA tag.
Definition mc (tag : string) : QName :=
  mkQName "org.polarsys.capella.common.data.modellingcore" tag.
Definition info (tag : string) : QName :=
  mkQName "org.polarsys.capella.core.data.information" tag.

Definition registry : list RegEntry :=
  [ since_7 (cc "Region") [];
    since_7 (cc "State") [cc "AbstractState"];
    since_7 (cc "Mode") [cc "State"; cc "AbstractState"];
    since_7 (cc "StateTransition") [];
    since_7 (fa "ComponentFunctionalAllocation") [];
    since_7 (fa "FunctionalExchange") [];
    since_7 (fa "FunctionInputPort") [fa "FunctionPort"];
    since_7 (fa "FunctionOutputPort") [fa "FunctionPort"];
    since_7 (sa "SystemAnalysis") [];
    since_7 (sa "SystemComponentPkg") [];
    since_7 (sa "SystemComponent") [fa "AbstractFunctionalBlock"];
    since_7 (sa "SystemFunction") [fa "AbstractFunction"];
    since_7 (oa "OperationalAnalysis") [];
    since_7 (oa "OperationalActivityPkg") [fa "FunctionPkg"];
    since_7 (oa "OperationalActivity") [fa "AbstractFunction"];
    since_7 (info "DataPkg") [];
    since_7 (info "Property") [mc "AbstractTypedElement"];
    since_7 (info "Class") [mc "AbstractType"] ].

Definition node (group : string) (ty : QName) (attrs : list (string * AttrVal))
  (children : list nat) (parent : option nat) : Node :=
  mkNode group ty attrs children parent true.

(** A region (node 0) with one state (1) and one transition (2). *)
Definition region_model : Model :=
  load (list_to_map
          [ (0, node "ownedRegions" (cc "Region") [] [1; 2] None);
            (1, node "ownedStates" (cc "State") [] [] (Some 0));
            (2, node "ownedTransitions" (cc "StateTransition") [] [] (Some 0)) ])
       0 (7, 0, 0) registry.

(** [Region.states = Containment("ownedStates", (NS, "AbstractState"))] *)
Definition Region_states : Containment.spec :=
  Containment.mkContainment "ownedStates" (cc "AbstractState").

(** A system analysis (0) with a component (1) and a function (2). *)
Definition allocation_model : Model :=
  load (list_to_map
          [ (0, node "ownedArchitectures" (sa "SystemAnalysis") [] [1; 2] None);
            (1, node "ownedSystemComponents" (sa "SystemComponent") [] [] (Some 0));
            (2, node "ownedFunctions" (sa "SystemFunction") [] [] (Some 0)) ])
       0 (7, 0, 0) registry.

(** fa.py, [AbstractFunctionalBlock.allocated_functions]. *)
Definition allocated_functions : Allocation.spec :=
  Allocation.mkAllocation "ownedFunctionalAllocation"
    (fa "ComponentFunctionalAllocation") (fa "AbstractFunction")
    "targetElement" (Some "sourceElement").

(** A data package (0) with a property (1) and two classes (2, 3). *)
Definition typed_model : Model :=
  load (list_to_map
          [ (0, node "ownedDataPkg" (info "DataPkg") [] [1; 2; 3] None);
            (1, node "ownedFeatures" (info "Property") [] [] (Some 0));
            (2, node "ownedClasses" (info "Class") [] [] (Some 0));
            (3, node "ownedClasses" (info "Class") [] [] (Some 0)) ])
       0 (7, 0, 0) registry.

(** modellingcore.py, [AbstractTypedElement.type]: the association that
    [Single] wraps. *)
Definition AbstractTypedElement_type : Single.relation :=
  Single.of_association
    (Association.mkAssociation (mc "AbstractType") "abstractType" None).

(** Two stretches of a session on the region model: the second removes
    the state the first one added. *)
Definition session_before : list Session.op :=
  [ Session.Resolve 2;
    Session.ContainmentAppend Region_states 0 (cc "Mode") [] ].

Definition session_between : list Session.op :=
  [ Session.ContainmentRemove Region_states 0 3;
    Session.Resolve 0;
    Session.ContainmentAppend Region_states 0 (cc "State") [] ].

End Examples.


(** ** metamodel/pa/__init__.py: [PhysicalComponent.related_components]

    [dict.fromkeys(...)], [dict.update(...)] and [list(d.keys())] on
    Python's insertion-ordered dictionaries, keyed by element identity. *)
Module PhysicalComponent.

(** A Python [dict]: its items in insertion order, every key once. *)
Definition pydict (V : Type) : Type := list (nat * V).

(** [d[k] = v]: an existing key keeps its place and takes the new value;
    a new key goes last. *)
Fixpoint setitem {V : Type} (k : nat) (v : V) (d : pydict V) : pydict V :=
  match d with
  | [] => [(k, v)]
  | (k', v') :: rest =>
      if Nat.eqb k' k then (k', v) :: rest else (k', v') :: setitem k v rest
  end.

(** [dict.fromkeys(ks)]: the keys in turn, each with the value [None]. *)
Definition fromkeys (ks : list nat) : pydict unit :=
  fold_left (fun d k => setitem k tt d) ks [].

(** [d.update(other)]: the items of [other] in turn. *)
Definition update {V : Type} (d other : pydict V) : pydict V :=
  fold_left (fun d kv => setitem (fst kv) (snd kv) d) other d.

(** [list(d.keys())] *)
Definition keys {V : Type} (d : pydict V) : list nat := map fst d.

(** [related_components], from the elements of [self.deployed_components]
    and of [self.owned_components]. *)
Definition related_components (deployed owned : list nat) : list nat :=
  keys (update (fromkeys deployed) (fromkeys owned)).

(** The keys of a dictionary after the keys [ks] were set in turn: each
    key not there yet goes last. *)
Definition add_keys (ks : list nat) (acc : list nat) : list nat :=
  fold_left (fun acc k => if existsb (Nat.eqb k) acc then acc else acc ++ [k])
            ks acc.

End PhysicalComponent.

(** ** metamodel/information: inherited members

    [Class.properties] (information/__init__.py) and
    [Enumeration.literals] (information/datatype.py) collect what a
    classifier owns and what its [super] chain does.  The reads of
    [owned_properties], [owned_literals] and [super] are parameters, and
    so are the tests whether an element is a [Class] or an
    [Enumeration]; the recursion is bounded by [depth] as by the
    interpreter's recursion limit, and running out raises
    [RecursionError]. *)
Module Inherited.

Section Classifier.
Variable owned : nat -> list nat.
Variable super : nat -> option nat.
Variable is_class : nat -> bool.
Variable is_enumeration : nat -> bool.

(** [Class.properties]:
    [self.owned_properties + self.super.properties
     if self.super is not None else self.owned_properties].
    The super is only compared with [None]: [properties] is defined by
    [Class] alone, so reading it from a super that is no [Class] raises
    [AttributeError]. *)
Fixpoint properties (depth : nat) (self : nat) : exn + list nat :=
  match depth with
  | O => inl RecursionError
  | S d =>
      match super self with
      | Some s =>
          if is_class s then
            match properties d s with
            | inr inherited => inr (owned self ++ inherited)
            | inl e => inl e
            end
          else inl (AttributeError "properties")
      | None => inr (owned self)
      end
  end.

(** [Enumeration.literals]:
    [self.owned_literals + self.super.literals
     if isinstance(self.super, Enumeration) else self.owned_literals] *)
Fixpoint literals (depth : nat) (self : nat) : exn + list nat :=
  match depth with
  | O => inl RecursionError
  | S d =>
      match super self with
      | Some s =>
          if is_enumeration s then
            match literals d s with
            | inr inherited => inr (owned self ++ inherited)
            | inl e => inl e
            end
          else inr (owned self)
      | None => inr (owned self)
      end
  end.

(** [chain] lists a class and its successive supers as long as these
    are classes: it ends with a class whose super is none, or is no
    [Class]. *)
Fixpoint super_chain (chain : list nat) : Prop :=
  match chain with
  | [] => False
  | c :: rest =>
      match rest with
      | [] => match super c with
              | Some s => is_class s = false
              | None => True
              end
      | s :: _ => super c = Some s /\ is_class s = true /\ super_chain rest
      end
  end.

(** The last classifier of the chain [c :: rest]. *)
Fixpoint top (c : nat) (rest : list nat) : nat :=
  match rest with
  | [] => c
  | s :: rest' => top s rest'
  end.

(** [chain] lists an enumeration and its successive supers that are
    enumerations, up to one whose super is none or no enumeration. *)
Fixpoint enumeration_chain (chain : list nat) : Prop :=
  match chain with
  | [] => False
  | c :: rest =>
      match rest with
      | [] => match super c with
              | Some s => is_enumeration s = false
              | None => True
              end
      | s :: _ =>
          super c = Some s /\ is_enumeration s = true /\ enumeration_chain rest
      end
  end.

(** The class met after [n] steps up from [c], if the chain of classes
    is that long. *)
Fixpoint nth_super (n : nat) (c : nat) : option nat :=
  match n with
  | O => Some c
  | S k => match super c with
           | Some s => if is_class s then nth_super k s else None
           | None => None
           end
  end.

End Classifier.

End Inherited.

(** ** The root accessors of the architecture layers

    oa.py [OperationalAnalysis.root_entity], sa.py / la.py /
    pa/__init__.py [root_function], la.py and pa/__init__.py
    [root_component].  Field reads go through the attribute dispatch
    [getattr]; [short_repr] stands for [pkg._short_repr_()]. *)
Module Roots.
Import Tree Descriptors Metamodel.

Section Accessors.
Variable getattr : Model -> nat -> string -> reading value.
Variable short_repr : nat -> string.

(** The truth value of a value read from a field: a collection is true
    when it has members, an element always, [None] never. *)
Definition truthy (v : value) : bool :=
  match v with
  | VList l => negb (Nat.eqb (length l) 0)
  | VElem _ => true
  | VNone => false
  | VBool b => b
  end.

(** oa.py, [OperationalAnalysis.root_entity]. *)
Definition root_entity (st : Model) (self : nat) : reading nat :=
  rwarn (mkWarning "FutureWarning"
           "OperationalActivity.root_entity can only handle a single Entity, use .entity_pkg.entities directly instead")
    (rbind (getattr st self "entity_pkg") (fun pkg =>
       match pkg with
       | VNone => rraise (BrokenModelError "OperationalAnalysis has no root EntityPkg")
       | VElem p =>
           rbind (getattr st p "entities") (fun candidates =>
           rbind (len candidates) (fun n =>
             if Nat.ltb n 1 then rraise (BrokenModelError "Root EntityPkg is empty")
             else if Nat.ltb 1 n then
               rraise (RuntimeError
                 (String.append
                    "Expected 1 object for OperationalAnalysis.root_entity, got "
                    (pretty n)))
             else first candidates))
       | _ => rraise (AttributeError "entities")
       end)).

(** sa.py, la.py and pa/__init__.py, [root_function]: the same body in
    the three layers. *)
Definition root_function (st : Model) (self : nat) : reading nat :=
  rbind (getattr st self "function_pkg") (fun pkg =>
    match pkg with
    | VNone => rraise AssertionError
    | VElem p =>
        rbind (getattr st p "functions") (fun fs =>
          if negb (truthy fs) then
            rraise (RuntimeError
              (String.append "Package " (String.append (short_repr p) " is empty")))
          else rbind (getattr st p "functions") first)
    | _ => rraise (AttributeError "functions")
    end).

(** The tail shared by the [root_component] properties:
    [self.component_pkg.components.by_is_actor(False, single=True)]. *)
Definition sole_non_actor (st : Model) (self : nat) : reading nat :=
  rbind (getattr st self "component_pkg") (fun pkg =>
    match pkg with
    | VElem p =>
        rbind (getattr st p "components") (fun cs =>
          match cs with
          | VList l => rbind (by_bool getattr st "is_actor" false l) single
          | _ => rraise (AttributeError "by_is_actor")
          end)
    | _ => rraise (AttributeError "components")
    end).

(** la.py, [LogicalArchitecture.root_component]: the package is
    asserted. *)
Definition root_component_la (st : Model) (self : nat) : reading nat :=
  rbind (getattr st self "component_pkg") (fun pkg =>
    match pkg with
    | VNone => rraise AssertionError
    | _ => sole_non_actor st self
    end).

(** pa/__init__.py, [PhysicalArchitecture.root_component]. *)
Definition root_component_pa (st : Model) (self : nat) : reading nat :=
  rbind (getattr st self "component_pkg") (fun pkg =>
    match pkg with
    | VNone => rraise (BrokenModelError "No root PhysicalComponentPkg found")
    | _ => sole_non_actor st self
    end).

(** Modelled from the spec: [Single(..., enforce=True)], as
    [PhysicalArchitecture.component_pkg] is declared.  Reading a
    mandatory [Single] relation that is empty raises where a plain
    [Single] returns [None]: the [StructuralInvariantError] of section
    7, which the runtime raises as its [MissingValueError]. *)
Definition enforced (r : reading value) : reading value :=
  rbind r (fun v =>
    match v with
    | VNone => rraise MissingValueError
    | _ => rret v
    end).

(** The attribute dispatch when node [pa] is a [PhysicalArchitecture]:
    its [component_pkg] is enforced. *)
Definition getattr_pa (pa : nat) (st : Model) (n : nat) (name : string)
  : reading value :=
  if Nat.eqb n pa && String.eqb name "component_pkg"
  then enforced (getattr st n name)
  else getattr st n name.

(** [links[0] if links else None] *)
Definition first_or_none (v : value) : reading value :=
  if truthy v then rbind (first v) (fun x => rret (VElem x)) else rret VNone.

(** fa.py, [ComponentExchange.allocating_physical_link], under a
    [deprecated] decorator. *)
Definition allocating_physical_link (st : Model) (self : nat) : reading value :=
  rwarn (mkWarning "FutureWarning"
           "ComponentExchange.allocating_physical_link is deprecated, because it only takes into account the first allocation link. Use allocating_physical_links instead, which allows multiple links.")
    (rbind (getattr st self "allocating_physical_links") first_or_none).

(** fa.py, [ComponentExchange.owner]. *)
Definition ComponentExchange_owner (st : Model) (self : nat) : reading value :=
  rwarn (mkWarning "FutureWarning"
           "ComponentExchange.owner is deprecated, because it only takes into account the first allocation link. Use allocating_physical_links instead, which allows multiple links.")
    (rbind (getattr st self "allocating_physical_links") first_or_none).

End Accessors.

(** [PhysicalArchitecture.root_component] as it runs: the property of
    pa/__init__.py over the dispatch that enforces [component_pkg]. *)
Definition PhysicalArchitecture_root_component
  (getattr : Model -> nat -> string -> reading value) (st : Model) (self : nat)
  : reading nat :=
  root_component_pa (getattr_pa getattr self) st self.

End Roots.

(** ** la.py and sa.py: [all_actor_exchanges]

    The exchanges found below the layer are filtered by a predicate on
    their ends.  The reads the predicate performs ([e.source],
    [e.target], [.parent], [.is_actor]) and the searched exchanges are
    parameters. *)
Module ActorExchanges.

Section Layer.
Variable source : nat -> option nat.
Variable target : nat -> option nat.
Variable parent : nat -> option nat.
(** [x.is_actor] is declared by [cs.Component]: on an element of another
    class ([None] here) the read raises [AttributeError]. *)
Variable is_actor : nat -> option bool.

(** [x is not None and x.parent is not None and x.parent.is_actor] *)
Definition hangs_under_actor (x : option nat) : exn + bool :=
  match x with
  | Some port =>
      match parent port with
      | Some owner =>
          match is_actor owner with
          | Some answer => inr answer
          | None => inl (AttributeError "is_actor")
          end
      | None => inr false
      end
  | None => inr false
  end.

(** The [lambda e: (...) or (...)] given to [filter]: the target is
    looked at only when the source does not hang under an actor. *)
Definition involves_actor (e : nat) : exn + bool :=
  match hangs_under_actor (source e) with
  | inr false => hangs_under_actor (target e)
  | answer => answer
  end.

(** Modelled from the spec: [ElementList.filter(predicate)] (section
    4.9) asks the predicate about the members in order and keeps those
    for which it holds; an exception of the predicate ends the call. *)
Fixpoint filter (predicate : nat -> exn + bool) (l : list nat)
  : exn + list nat :=
  match l with
  | [] => inr []
  | x :: rest =>
      match predicate x with
      | inl err => inl err
      | inr keep =>
          match filter predicate rest with
          | inl err => inl err
          | inr kept => inr (if keep then x :: kept else kept)
          end
      end
  end.

(** [all_actor_exchanges], from the result of
    [self._model.search((ns.FA, "ComponentExchange"), below=self)],
    which is also what [all_component_exchanges] returns. *)
Definition all_actor_exchanges (all_component_exchanges : list nat)
  : exn + list nat :=
  filter involves_actor all_component_exchanges.

End Layer.

End ActorExchanges.

(** * Properties *)

(** ** The git credential helper *)
Module GitCredHelperFacts.
Import GitCredHelper.

Lemma main_too_few (argv : list string) (environ : gmap string string) :
  length argv < 2 -> main argv environ = mkRun [] (Exited 1).
Proof.
  intros Hlen. unfold main.
  destruct (Nat.ltb_spec (length argv) 2) as [_ | Hge]; [reflexivity | lia].
Qed.

Lemma main_get (prog : string) (environ : gmap string string) :
  main [prog; "get"] environ =
    mkRun (print_if_set "username" "GIT_USERNAME" environ
             ++ print_if_set "password" "GIT_PASSWORD" environ)
          Returned.
Proof. reflexivity. Qed.

Lemma main_other (argv : list string) (environ : gmap string string) :
  2 <= length argv ->
  (forall prog, argv <> [prog; "get"]) ->
  main argv environ = mkRun [] Returned.
Proof.
  intros Hlen Hne. unfold main.
  destruct (Nat.ltb_spec (length argv) 2) as [Hlt | _]; [lia |].
  destruct argv as [| prog [| op [| extra rest]]]; simpl in Hlen; try lia.
  - destruct (String.eqb_spec op "get") as [-> | _]; [| reflexivity].
    now destruct (Hne prog).
  - reflexivity.
Qed.

(** C10, as written, fails: with a third argument after [get] the second
    argument is [get] and [GIT_USERNAME] is set, yet nothing is printed. *)
Lemma credhelper_get_with_extra_argument_prints_nothing :
  let argv := ["git-credential-capellambse"; "get"; "extra"] in
  let environ : gmap string string := {[ "GIT_USERNAME" := "alice" ]} in
  argv !! 1 = Some "get"
  /\ environ !! "GIT_USERNAME" = Some "alice"
  /\ stdout (main argv environ) = []
  /\ ending_of (main argv environ) = Returned.
Proof. repeat split; reflexivity. Qed.

(** C10 (amended): with fewer than two arguments [main] exits with status
    1 and prints nothing; with exactly two arguments, the second being
    [get], it prints a [username=] line iff [GIT_USERNAME] is set and then
    a [password=] line iff [GIT_PASSWORD] is set, echoing their values, and
    returns; with any other argument list it prints nothing and returns. *)
Theorem credhelper_main :
  forall (argv : list string) (environ : gmap string string),
    (length argv < 2 ->
       stdout (main argv environ) = [] /\ ending_of (main argv environ) = Exited 1)
    /\ (forall prog, argv = [prog; "get"] ->
          stdout (main argv environ) =
            match environ !! "GIT_USERNAME" with
            | Some u => [String.append "username=" u]
            | None => []
            end ++
            match environ !! "GIT_PASSWORD" with
            | Some pw => [String.append "password=" pw]
            | None => []
            end
          /\ ending_of (main argv environ) = Returned)
    /\ (2 <= length argv -> (forall prog, argv <> [prog; "get"]) ->
          stdout (main argv environ) = [] /\ ending_of (main argv environ) = Returned).
Proof.
  intros argv environ. split; [| split].
  - intros Hlen. now rewrite (main_too_few argv environ Hlen).
  - intros prog ->. rewrite main_get. unfold print_if_set; simpl.
    split; [| reflexivity].
    destruct (environ !! "GIT_USERNAME"), (environ !! "GIT_PASSWORD"); reflexivity.
  - intros Hlen Hne. now rewrite (main_other argv environ Hlen Hne).
Qed.

Lemma credhelper_main_witness :
  let environ : gmap string string :=
    {[ "GIT_USERNAME" := "alice"; "GIT_PASSWORD" := "s3cret" ]} in
  (stdout (main ["helper"] environ) = []
   /\ ending_of (main ["helper"] environ) = Exited 1)
  /\ (stdout (main ["helper"; "get"] environ) = ["username=alice"; "password=s3cret"]
      /\ ending_of (main ["helper"; "get"] environ) = Returned)
  /\ (stdout (main ["helper"; "store"] environ) = []
      /\ ending_of (main ["helper"; "store"] environ) = Returned).
Proof.
  intros environ. split; [| split].
  - apply (proj1 (credhelper_main ["helper"] environ)). simpl. lia.
  - apply (proj1 (proj2 (credhelper_main ["helper"; "get"] environ)) "helper").
    reflexivity.
  - apply (proj2 (proj2 (credhelper_main ["helper"; "store"] environ))).
    + simpl. lia.
    + intros prog H. discriminate H.
Defined.

End GitCredHelperFacts.

(** ** PhysicalLink.source and PhysicalLink.target *)
Module PhysicalLinkFacts.
Import PhysicalLink.






End PhysicalLinkFacts.

(** ** The tree: what the primitive mutations keep *)
Module TreeFacts.
Import Tree IdentityMap Detach.

Lemma kill_idem (nd : Node) : kill (kill nd) = kill nd.
Proof. reflexivity. Qed.

(** Invalidation touches the identity map only. *)
Lemma invalidate_nodes_frame (l : list nat) (st : Model) :
  m_nodes (foldl invalidate_node st l) = m_nodes st
  /\ m_registry (foldl invalidate_node st l) = m_registry st
  /\ m_version (foldl invalidate_node st l) = m_version st
  /\ m_root (foldl invalidate_node st l) = m_root st.
Proof.
  revert st. induction l as [| n l IH]; intros st; simpl; [auto |].
  destruct (IH (invalidate_node st n)) as (H1 & H2 & H3 & H4).
  rewrite H1, H2, H3, H4. auto.
Qed.

Lemma invalidate_frame (n : nat) (st : Model) :
  m_nodes (invalidate n st) = m_nodes st
  /\ m_registry (invalidate n st) = m_registry st
  /\ m_version (invalidate n st) = m_version st
  /\ m_root (invalidate n st) = m_root st.
Proof. apply invalidate_nodes_frame. Qed.

(** Destroying a list of nodes kills exactly those and leaves the other
    records alone. *)
Lemma destroy_lookup (doomed : list nat) (nodes : gmap nat Node) (c : nat) :
  foldr (alter kill) nodes doomed !! c =
    (if bool_decide (c ∈ doomed) then kill else id) <$> nodes !! c.
Proof.
  induction doomed as [| d doomed IH]; simpl.
  - now destruct (nodes !! c).
  - rewrite lookup_alter.
    destruct (decide (d = c)) as [-> | Hne];
      destruct (decide (c ∈ doomed)) as [Hin | Hnin]; rewrite IH.
    + rewrite (bool_decide_eq_true_2 (c ∈ doomed)) by assumption.
      rewrite (bool_decide_eq_true_2 (c ∈ c :: doomed)) by apply list_elem_of_here.
      now destruct (nodes !! c).
    + rewrite (bool_decide_eq_false_2 (c ∈ doomed)) by assumption.
      rewrite (bool_decide_eq_true_2 (c ∈ c :: doomed)) by apply list_elem_of_here.
      now destruct (nodes !! c).
    + rewrite (bool_decide_eq_true_2 (c ∈ doomed)) by assumption.
      rewrite (bool_decide_eq_true_2 (c ∈ d :: doomed))
        by now apply list_elem_of_further.
      reflexivity.
    + rewrite (bool_decide_eq_false_2 (c ∈ doomed)) by assumption.
      rewrite (bool_decide_eq_false_2 (c ∈ d :: doomed)); [reflexivity |].
      intros H. apply elem_of_cons in H as [-> | H]; auto.
Qed.

(** The store after [detach]. *)
Lemma detach_nodes (owner child : nat) (st : Model) :
  m_nodes (detach owner child st) =
    alter (remove_child child) owner
      (foldr (alter kill) (m_nodes st)
         (subtree (depth_bound st) (m_nodes st) child)).
Proof.
  unfold detach, update_node, destroy, with_nodes; simpl.
  now rewrite (proj1 (invalidate_frame child st)).
Qed.


(** A record after [detach]: killed if doomed, and, for the owner,
    without the child. *)
Lemma detach_lookup (owner child c : nat) (st : Model) :
  m_nodes (detach owner child st) !! c =
    (fun nd =>
       (if decide (owner = c) then remove_child child else id)
         ((if bool_decide (c ∈ subtree (depth_bound st) (m_nodes st) child)
           then kill else id) nd))
    <$> m_nodes st !! c.
Proof.
  rewrite detach_nodes, lookup_alter.
  destruct (decide (owner = c)) as [-> | Hne]; rewrite destroy_lookup;
    now destruct (m_nodes st !! c).
Qed.



(** A node outside the detached subtree, other than the owner, is left
    exactly as it was. *)
Lemma detach_other (owner child c : nat) (st : Model) :
  c <> owner ->
  c ∉ subtree (depth_bound st) (m_nodes st) child ->
  m_nodes (detach owner child st) !! c = m_nodes st !! c.
Proof.
  intros Hne Hnin. rewrite detach_lookup.
  destruct (decide (owner = c)); [congruence |].
  rewrite bool_decide_eq_false_2 by assumption.
  now destruct (m_nodes st !! c).
Qed.

End TreeFacts.

(** ** Containment *)
Module ContainmentFacts.
Import Tree IdentityMap Detach Containment TreeFacts.





(** What a successful [append] did. *)
Lemma append_inv (sp : spec) (owner : nat) (ty : QName)
  (attrs : list (string * AttrVal)) (st st' : Model) (new : nat) :
  append sp owner ty attrs st = Ok new st' ->
  exists ond,
    live_node st owner = Some ond
    /\ admits st sp ty = None
    /\ new = fresh (dom (m_nodes st))
    /\ st' = with_nodes
               (fun nodes =>
                  <[new := mkNode (ct_group sp) ty attrs [] (Some owner) true]>
                    (alter (set_children
                              (insert_after_last_match (child_matches st sp) new
                                 (n_children ond)))
                           owner nodes))
               st.
Proof.
  unfold append. destruct (live_node st owner) as [ond |]; [| discriminate].
  destruct (admits st sp ty); [discriminate |].
  intros [= <- <-]. exists ond. auto.
Qed.


Lemma live_node_Some (st : Model) (n : nat) (nd : Node) :
  live_node st n = Some nd -> m_nodes st !! n = Some nd /\ n_alive nd = true.
Proof.
  unfold live_node. destruct (m_nodes st !! n) as [nd0 |]; [| discriminate].
  destruct (n_alive nd0) eqn:Ha; [| discriminate]. now intros [= <-].
Qed.

Lemma fresh_node_absent (st : Model) : m_nodes st !! fresh (dom (m_nodes st)) = None.
Proof. apply not_elem_of_dom, is_fresh. Qed.

(** The store after a successful [append]. *)
Lemma append_lookup (sp : spec) (owner : nat) (ty : QName)
  (attrs : list (string * AttrVal)) (st st' : Model) (new : nat) :
  append sp owner ty attrs st = Ok new st' ->
  m_nodes st !! new = None
  /\ new <> owner
  /\ m_nodes st' !! new = Some (mkNode (ct_group sp) ty attrs [] (Some owner) true)
  /\ (exists ond, live_node st owner = Some ond
        /\ m_nodes st' !! owner =
             Some (set_children
                     (insert_after_last_match (child_matches st sp) new (n_children ond))
                     ond))
  /\ (forall c, c <> new -> c <> owner -> m_nodes st' !! c = m_nodes st !! c)
  /\ m_registry st' = m_registry st
  /\ m_version st' = m_version st
  /\ m_idmap st' = m_idmap st
  /\ m_wrappers st' = m_wrappers st
  /\ m_root st' = m_root st.
Proof.
  intros H. apply append_inv in H as (ond & Hl & Ha & -> & ->).
  pose proof (fresh_node_absent st) as Hfresh.
  destruct (live_node_Some _ _ _ Hl) as [Hown _].
  assert (Hne : fresh (dom (m_nodes st)) <> owner) by congruence.
  simpl. repeat split.
  - assumption.
  - assumption.
  - apply lookup_insert_eq.
  - exists ond. split; [assumption |].
    rewrite lookup_insert_ne by assumption.
    rewrite lookup_alter_eq, Hown. reflexivity.
  - intros c Hc1 Hc2. rewrite lookup_insert_ne by auto.
    now rewrite lookup_alter_ne by auto.
Qed.





















(** The same run, evaluated: the region's state 1 and transition 2 keep
    their places while states 3, 4 and 5 arrive and state 4 leaves. *)
Example containment_run :
  let st1 := state_of (append Examples.Region_states 0 (Examples.cc "State") []
                              Examples.region_model) in
  let st2 := state_of (append Examples.Region_states 0 (Examples.cc "Mode") [] st1) in
  let st3 := state_of (append Examples.Region_states 0 (Examples.cc "State") [] st2) in
  let st4 := state_of (remove Examples.Region_states 0 4 st3) in
  get st3 Examples.Region_states 0 = [1; 3; 4; 5]
  /\ children_of st3 0 = [1; 3; 4; 5; 2]
  /\ get st4 Examples.Region_states 0 = [1; 3; 5]
  /\ children_of st4 0 = [1; 3; 5; 2].
Proof. vm_compute. repeat split. Qed.

End ContainmentFacts.

(** ** Allocation *)
Module AllocationFacts.
Import Tree IdentityMap Detach Allocation TreeFacts ContainmentFacts.




(** What a successful [append] of the allocation did underneath. *)
Lemma append_inv_alloc (sp : spec) (owner target : nat) (st st1 : Model) (r : nat) :
  append sp owner target st = Ok r st1 ->
  r = target
  /\ node_matches st (al_class sp) target = true
  /\ exists link,
       Containment.append (link_spec sp) owner (al_link sp)
                          (link_attrs sp owner target) st = Ok link st1.
Proof.
  unfold append.
  destruct (node_matches st (al_class sp) target); simpl; [| discriminate].
  destruct (Containment.append _ _ _ _ st) as [link st' | e st'] eqn:E;
    [| discriminate].
  intros [= <- <-]. eauto.
Qed.















(** The same run, evaluated: the link is node 3. *)
Example allocation_run :
  let st1 := state_of (append Examples.allocated_functions 1 2
                              Examples.allocation_model) in
  let st2 := state_of (remove Examples.allocated_functions 1 2 st1) in
  Containment.children_of st1 1 = [3]
  /\ get st1 Examples.allocated_functions 1 = [2]
  /\ Containment.children_of st2 1 = []
  /\ live_node st2 3 = None
  /\ live_node st2 2 = live_node Examples.allocation_model 2.
Proof. vm_compute. repeat split. Qed.

End AllocationFacts.

(** ** The identity map *)
Module IdentityFacts.
Import Tree IdentityMap Detach Session TreeFacts ContainmentFacts.

Lemma live_wrapper_inj (st : Model) (w n n' : nat) :
  live_wrapper st w n -> live_wrapper st w n' -> n = n'.
Proof. intros (wr & H & <- & _) (wr' & H' & <- & _). congruence. Qed.

(** Dropping one entry keeps the map and the wrappers in agreement. *)
Lemma invalidate_node_agree (st : Model) (n : nat) :
  (forall m w, m_idmap st !! m = Some w <-> live_wrapper st w m) ->
  forall m w, m_idmap (invalidate_node st n) !! m = Some w
              <-> live_wrapper (invalidate_node st n) w m.
Proof.
  intros I m w. unfold invalidate_node, live_wrapper. simpl.
  rewrite lookup_delete. destruct (decide (n = m)) as [<- | Hnm].
  - split; [discriminate |]. intros (wr & Hwr & Hnode & Hvalid).
    exfalso. destruct (m_idmap st !! n) as [w0 |] eqn:E.
    + rewrite lookup_alter in Hwr. destruct (decide (w0 = w)) as [<- | Hw].
      * destruct (m_wrappers st !! w0); simpl in Hwr; [| discriminate].
        injection Hwr as <-. discriminate.
      * assert (Hl : live_wrapper st w n) by (exists wr; auto).
        apply I in Hl. congruence.
    + assert (Hl : live_wrapper st w n) by (exists wr; auto).
      apply I in Hl. congruence.
  - rewrite I. unfold live_wrapper.
    destruct (m_idmap st !! n) as [w0 |] eqn:E; [| reflexivity].
    rewrite lookup_alter. destruct (decide (w0 = w)) as [<- | Hw]; [| reflexivity].
    apply I in E. split.
    + intros Hl. exfalso. apply Hnm. exact (live_wrapper_inj st w0 n m E Hl).
    + intros (wr & Hwr & _ & Hvalid). exfalso.
      destruct (m_wrappers st !! w0); simpl in Hwr; [| discriminate].
      injection Hwr as <-. discriminate.
Qed.

Lemma invalidate_nodes_agree (l : list nat) (st : Model) :
  (forall m w, m_idmap st !! m = Some w <-> live_wrapper st w m) ->
  forall m w, m_idmap (foldl invalidate_node st l) !! m = Some w
              <-> live_wrapper (foldl invalidate_node st l) w m.
Proof.
  revert st. induction l as [| n l IH]; intros st I; simpl; [exact I |].
  apply IH, invalidate_node_agree, I.
Qed.

(** The entries that survive an invalidation are those of the nodes not
    invalidated. *)
Lemma invalidate_nodes_idmap (l : list nat) (st : Model) (m : nat) :
  m_idmap (foldl invalidate_node st l) !! m =
    if bool_decide (m ∈ l) then None else m_idmap st !! m.
Proof.
  revert st. induction l as [| n l IH]; intros st; simpl; [reflexivity |].
  rewrite IH. simpl. rewrite lookup_delete.
  destruct (decide (n = m)) as [<- | Hnm].
  - rewrite (bool_decide_eq_true_2 (n ∈ n :: l)) by apply list_elem_of_here.
    now destruct (bool_decide (n ∈ l)).
  - destruct (decide (m ∈ l)) as [Hin | Hnin].
    + rewrite (bool_decide_eq_true_2 (m ∈ l)) by assumption.
      now rewrite (bool_decide_eq_true_2 (m ∈ n :: l))
        by now apply list_elem_of_further.
    + rewrite (bool_decide_eq_false_2 (m ∈ l)) by assumption.
      rewrite (bool_decide_eq_false_2 (m ∈ n :: l)); [reflexivity |].
      intros H. apply elem_of_cons in H as [-> | H]; auto.
Qed.

(** Resolution keeps the map and the wrappers in agreement, keeps every
    entry, and leaves the tree alone. *)
Lemma get_or_create_keeps (n : nat) (st : Model) :
  consistent st ->
  consistent (state_of (get_or_create n st))
  /\ (forall m w, m_idmap st !! m = Some w ->
                  m_idmap (state_of (get_or_create n st)) !! m = Some w)
  /\ m_nodes (state_of (get_or_create n st)) = m_nodes st.
Proof.
  intros [I1 I2]. unfold get_or_create.
  destruct (m_idmap st !! n) as [w0 |] eqn:E; simpl;
    [split; [exact (conj I1 I2) | split; auto] |].
  destruct (live_node st n) as [nd |] eqn:El; simpl;
    [| split; [exact (conj I1 I2) | split; auto]].
  destruct (class_of_node st nd) as [c |] eqn:Ec; simpl;
    [| split; [exact (conj I1 I2) | split; auto]].
  set (w := fresh (dom (m_wrappers st))).
  assert (Hw : m_wrappers st !! w = None) by apply not_elem_of_dom, is_fresh.
  split; [split |]; [| | split]; simpl.
  - intros m w'. unfold live_wrapper. simpl.
    rewrite lookup_insert. destruct (decide (n = m)) as [<- | Hnm].
    + split.
      * intros [= <-]. exists (mkWrapper n (c_name c) true).
        now rewrite lookup_insert_eq.
      * intros (wr & Hwr & Hnode & Hvalid).
        rewrite lookup_insert in Hwr. destruct (decide (w = w')) as [<- | Hww];
          [reflexivity |].
        exfalso. assert (Hl : live_wrapper st w' n) by (exists wr; auto).
        apply I1 in Hl. congruence.
    + rewrite I1. unfold live_wrapper. split.
      * intros (wr & Hwr & Hnode & Hvalid). exists wr.
        rewrite lookup_insert_ne by congruence. auto.
      * intros (wr & Hwr & Hnode & Hvalid).
        rewrite lookup_insert in Hwr. destruct (decide (w = w')) as [<- | Hww].
        -- injection Hwr as <-. simpl in Hnode. congruence.
        -- exists wr. auto.
  - intros m w'. unfold live_node. simpl. rewrite lookup_insert.
    destruct (decide (n = m)) as [<- | Hnm].
    + intros _. unfold live_node in El. rewrite El. eauto.
    + apply I2.
  - intros m w' Hm. rewrite lookup_insert_ne; [assumption | congruence].
  - reflexivity.
Qed.

Lemma evolves_refl (st : Model) : evolves st st.
Proof. unfold evolves. auto. Qed.

Lemma evolves_trans (st1 st2 st3 : Model) :
  evolves st1 st2 -> evolves st2 st3 -> evolves st1 st3.
Proof.
  intros (A1 & A2 & A3) (B1 & B2 & B3). split; [| split].
  - auto.
  - intros C n w Hn. destruct (A2 C n w Hn) as [H | H].
    + apply B2; auto.
    + right. auto.
  - auto.
Qed.

Lemma evolves_resolve (n : nat) (st : Model) :
  evolves st (state_of (get_or_create n st)).
Proof.
  split; [| split].
  - intros C. apply (get_or_create_keeps n st C).
  - intros C m w Hm. left. now apply (get_or_create_keeps n st C).
  - intros m (nd & Hnd & Ha). exists nd. split; [| assumption].
    unfold get_or_create.
    destruct (m_idmap st !! n); simpl; [assumption |].
    destruct (live_node st n) as [nd0 |]; simpl; [| assumption].
    destruct (class_of_node st nd0); simpl; assumption.
Qed.

Lemma grows_live (st st' : Model) (n : nat) :
  grows st st' -> is_Some (live_node st n) -> is_Some (live_node st' n).
Proof.
  intros (_ & _ & G) [nd Hnd]. unfold live_node in *.
  destruct (m_nodes st !! n) as [nd0 |] eqn:E; [| discriminate].
  destruct (G n nd0 E) as (nd' & -> & Ha). rewrite Ha.
  destruct (n_alive nd0); [eauto | discriminate].
Qed.

Lemma evolves_grows (st st' : Model) : grows st st' -> evolves st st'.
Proof.
  intros G. pose proof G as (Hid & Hws & Hn). split; [| split].
  - intros [I1 I2]. split.
    + intros n w. unfold live_wrapper. rewrite Hid, Hws. apply I1.
    + intros n w Hnw. rewrite Hid in Hnw. eapply grows_live; eauto.
  - intros _ n w Hnw. left. now rewrite Hid.
  - intros n (nd & Hnd & Ha). destruct (Hn n nd Hnd) as (nd' & Hnd' & Ha').
    exists nd'. split; [assumption | congruence].
Qed.

(** Rewriting one record without touching its liveness is growth. *)
Lemma grows_update (owner : nat) (f : Node -> Node) (st : Model) :
  (forall nd, n_alive (f nd) = n_alive nd) ->
  grows st (update_node owner f st).
Proof.
  intros Hf. split; [reflexivity | split; [reflexivity |]].
  intros n nd Hnd. simpl. rewrite lookup_alter.
  destruct (decide (owner = n)) as [-> | Hne].
  - rewrite Hnd. simpl. eauto.
  - eauto.
Qed.

Lemma store_refs_alive (name : string) (l : list nat) (nd : Node) :
  n_alive (store_refs name l nd) = n_alive nd.
Proof. unfold store_refs. now destruct l. Qed.

(** A successful [append] of a containment is growth. *)
Lemma grows_append (sp : Containment.spec) (owner : nat) (ty : QName)
  (attrs : list (string * AttrVal)) (st st' : Model) (new : nat) :
  Containment.append sp owner ty attrs st = Ok new st' -> grows st st'.
Proof.
  intros E.
  destruct (append_lookup _ _ _ _ _ _ _ E)
    as (Hfresh & Hne & Hnew & (ond & Hl & Hown') & Hother & _ & _ & Hid & Hws & _).
  destruct (live_node_Some _ _ _ Hl) as [Hown _].
  split; [assumption | split; [assumption |]].
  intros n nd Hnd. destruct (decide (n = owner)) as [-> | Hno].
  - rewrite Hown'. rewrite Hown in Hnd. injection Hnd as <-. eauto.
  - rewrite Hother; [eauto | congruence | assumption].
Qed.

Lemma detach_identity (owner child : nat) (st : Model) :
  m_idmap (detach owner child st)
  = m_idmap (foldl invalidate_node st (subtree (depth_bound st) (m_nodes st) child))
  /\ m_wrappers (detach owner child st)
     = m_wrappers (foldl invalidate_node st
                     (subtree (depth_bound st) (m_nodes st) child)).
Proof. split; reflexivity. Qed.

(** The liveness of a record after [detach]: lost exactly by the nodes of
    the detached subtree. *)
Lemma detach_alive (owner child n : nat) (st : Model) (nd : Node) :
  m_nodes st !! n = Some nd ->
  exists nd', m_nodes (detach owner child st) !! n = Some nd'
              /\ n_alive nd' =
                   if bool_decide (n ∈ subtree (depth_bound st) (m_nodes st) child)
                   then false else n_alive nd.
Proof.
  intros Hnd. rewrite detach_lookup, Hnd. simpl. eexists. split; [reflexivity |].
  destruct (decide (owner = n)), (bool_decide _); reflexivity.
Qed.

Lemma evolves_detach (owner child : nat) (st : Model) :
  evolves st (detach owner child st).
Proof.
  destruct (detach_identity owner child st) as [Hid Hws].
  set (doomed := subtree (depth_bound st) (m_nodes st) child) in *.
  split; [| split].
  - intros [I1 I2]. split.
    + intros n w. unfold live_wrapper. rewrite Hid, Hws.
      apply (invalidate_nodes_agree doomed st I1).
    + intros n w Hnw. rewrite Hid, invalidate_nodes_idmap in Hnw.
      destruct (bool_decide (n ∈ doomed)) eqn:Hd; [discriminate |].
      destruct (I2 n w Hnw) as [nd Hl]. apply live_node_Some in Hl as [Hnd Ha].
      destruct (detach_alive owner child n st nd Hnd) as (nd' & Hnd' & Ha').
      fold doomed in Ha'. rewrite Hd in Ha'.
      unfold live_node. rewrite Hnd'. rewrite Ha', Ha. eauto.
  - intros [I1 I2] n w Hnw.
    destruct (bool_decide (n ∈ doomed)) eqn:Hd.
    + right. destruct (I2 n w Hnw) as [nd Hl].
      apply live_node_Some in Hl as [Hnd Ha].
      destruct (detach_alive owner child n st nd Hnd) as (nd' & Hnd' & Ha').
      fold doomed in Ha'. rewrite Hd in Ha'. exists nd'. auto.
    + left. rewrite Hid, invalidate_nodes_idmap. now rewrite Hd.
  - intros n (nd & Hnd & Ha).
    destruct (detach_alive owner child n st nd Hnd) as (nd' & Hnd' & Ha').
    exists nd'. split; [assumption |]. rewrite Ha'.
    now destruct (bool_decide _).
Qed.

(** Every operation of a session evolves the model. *)
Lemma evolves_step (st : Model) (o : op) : evolves st (step st o).
Proof.
  destruct o as [n | sp owner ty attrs | sp owner child | sp owner members
                 | sp owner target | sp owner target | sp owner target
                 | sp owner target]; simpl.
  - apply evolves_resolve.
  - unfold bind.
    destruct (Containment.append sp owner ty attrs st) as [new st' | e st'] eqn:E.
    + eapply evolves_trans; [apply evolves_grows, (grows_append _ _ _ _ _ _ _ E) |].
      apply evolves_resolve.
    + unfold Containment.append in E.
      destruct (live_node st owner); [| injection E as _ <-; apply evolves_refl].
      destruct (Containment.admits st sp ty); [| discriminate].
      injection E as _ <-. apply evolves_refl.
  - unfold Containment.remove.
    destruct (existsb _ _); simpl; [apply evolves_detach | apply evolves_refl].
  - unfold Association.set.
    destruct (live_node st owner); simpl; [| apply evolves_refl].
    destruct (negb _); simpl; [apply evolves_refl |].
    destruct (negb _); simpl; [apply evolves_refl |].
    apply evolves_grows, grows_update, store_refs_alive.
  - unfold bind, Association.append, Association.set.
    destruct (live_node st owner); simpl; [| apply evolves_refl].
    destruct (negb _); simpl; [apply evolves_refl |].
    destruct (negb _); simpl; [apply evolves_refl |].
    eapply evolves_trans; [apply evolves_grows, grows_update, store_refs_alive |].
    apply evolves_resolve.
  - unfold Association.remove, Association.set.
    destruct (existsb _ _); simpl; [| apply evolves_refl].
    destruct (live_node st owner); simpl; [| apply evolves_refl].
    destruct (negb _); simpl; [apply evolves_refl |].
    destruct (negb _); simpl; [apply evolves_refl |].
    apply evolves_grows, grows_update, store_refs_alive.
  - unfold bind, Allocation.append.
    destruct (negb _); simpl; [apply evolves_refl |].
    destruct (Containment.append _ _ _ _ st) as [new st' | e st'] eqn:E.
    + eapply evolves_trans; [apply evolves_grows, (grows_append _ _ _ _ _ _ _ E) |].
      apply evolves_resolve.
    + unfold Containment.append in E.
      destruct (live_node st owner); [| injection E as _ <-; apply evolves_refl].
      destruct (Containment.admits st _ _); [| discriminate].
      injection E as _ <-. apply evolves_refl.
  - unfold Allocation.remove.
    destruct (List.find _ _); simpl; [apply evolves_detach | apply evolves_refl].
Qed.

Lemma evolves_run (ops : list op) (st : Model) : evolves st (run ops st).
Proof.
  revert st. induction ops as [| o ops IH]; intros st; simpl.
  - apply evolves_refl.
  - eapply evolves_trans; [apply evolves_step | apply IH].
Qed.

Lemma consistent_load (nodes : gmap nat Node) (root : nat) (v : Version)
  (registry : list RegEntry) :
  consistent (load nodes root v registry).
Proof.
  split.
  - intros n w. unfold live_wrapper. simpl. rewrite lookup_empty. split.
    + discriminate.
    + intros (wr & Hwr & _). rewrite lookup_empty in Hwr. discriminate.
  - intros n w. simpl. rewrite lookup_empty. discriminate.
Qed.

(** A resolution that returns leaves the returned wrapper as the node's
    entry. *)
Lemma get_or_create_entry (n w : nat) (st st' : Model) :
  get_or_create n st = Ok w st' -> m_idmap st' !! n = Some w.
Proof.
  unfold get_or_create.
  destruct (m_idmap st !! n) as [w0 |] eqn:E; [now intros [= <- <-] |].
  destruct (live_node st n) as [nd |]; [| discriminate].
  destruct (class_of_node st nd); [| discriminate].
  intros [= <- <-]. simpl. apply lookup_insert_eq.
Qed.

(** A resolution of a node with an entry returns it and changes nothing. *)
Lemma get_or_create_hit (n w : nat) (st : Model) :
  m_idmap st !! n = Some w -> get_or_create n st = Ok w st.
Proof. intros H. unfold get_or_create. now rewrite H. Qed.

Lemma dead_not_live (st : Model) (n : nat) : dead st n -> live_node st n = None.
Proof. intros (nd & Hnd & Ha). unfold live_node. now rewrite Hnd, Ha. Qed.

(** C2: in a model, from the moment the document is loaded and through
    every sequence of binding operations, a node has at most one live
    wrapper; and two resolutions of the same node, however many
    operations lie between them, return the same wrapper. *)
Theorem identity_map_one_wrapper_per_node :
  forall (nodes : gmap nat Node) (root : nat) (v : Version)
         (registry : list RegEntry),
    (forall ops n w w',
        live_wrapper (run ops (load nodes root v registry)) w n ->
        live_wrapper (run ops (load nodes root v registry)) w' n ->
        w = w')
    /\ (forall ops1 ops2 n w1 w2 st1 st2,
          get_or_create n (run ops1 (load nodes root v registry)) = Ok w1 st1 ->
          get_or_create n (run ops2 st1) = Ok w2 st2 ->
          w1 = w2).
Proof.
  intros nodes root v registry.
  pose proof (consistent_load nodes root v registry) as C0.
  split.
  - intros ops n w w' H H'.
    destruct (evolves_run ops (load nodes root v registry)) as (E & _).
    destruct (E C0) as [I1 _].
    apply I1 in H, H'. congruence.
  - intros ops1 ops2 n w1 w2 st1 st2 R1 R2.
    destruct (evolves_run ops1 (load nodes root v registry)) as (E1 & _).
    pose proof (get_or_create_keeps n _ (E1 C0)) as (C1 & _).
    rewrite R1 in C1. simpl in C1.
    pose proof (get_or_create_entry _ _ _ _ R1) as Hentry.
    destruct (evolves_run ops2 st1) as (E2 & K2 & _).
    destruct (K2 C1 n w1 Hentry) as [Hkept | Hdead].
    + rewrite (get_or_create_hit _ _ _ Hkept) in R2. congruence.
    + exfalso. destruct (E2 C1) as [_ I2].
      unfold get_or_create in R2.
      destruct (m_idmap (run ops2 st1) !! n) as [w |] eqn:E.
      * destruct (I2 n w E) as [nd Hl].
        rewrite (dead_not_live _ _ Hdead) in Hl. discriminate.
      * rewrite (dead_not_live _ _ Hdead) in R2. discriminate.
Qed.

Lemma identity_map_one_wrapper_per_node_witness :
  let st0 := Examples.region_model in
  let r1 := get_or_create 1 (run Examples.session_before st0) in
  let r2 := get_or_create 1 (run Examples.session_between (state_of r1)) in
  exists w1 w2,
    r1 = Ok w1 (state_of r1)
    /\ r2 = Ok w2 (state_of r2)
    /\ w1 = w2
    /\ live_wrapper (run (Examples.session_before ++ [Resolve 1]) st0) w1 1.
Proof.
  intros st0 r1 r2.
  assert (H1 : r1 = Ok 2 (state_of r1)) by (vm_compute; reflexivity).
  assert (H2 : r2 = Ok 2 (state_of r2)) by (vm_compute; reflexivity).
  assert (L : live_wrapper (run (Examples.session_before ++ [Resolve 1]) st0) 2 1).
  { exists (mkWrapper 1 "State" true). repeat split. }
  exists 2, 2. split; [exact H1 | split; [exact H2 | split; [| exact L]]].
  exact (proj2 (identity_map_one_wrapper_per_node
                  (m_nodes Examples.region_model) 0 (7, 0, 0) Examples.registry)
           Examples.session_before Examples.session_between 1 2 2
           (state_of r1) (state_of r2) H1 H2).
Defined.

(** A node that has been removed no longer resolves; its old wrapper is
    kept, invalidated. *)
Example removed_node_does_not_resolve :
  let st1 := run (Examples.session_before) Examples.region_model in
  let st2 := run Examples.session_between st1 in
  get_or_create 3 st1 = Ok 1 st1
  /\ get_or_create 3 st2 = Raise DanglingReferenceError st2
  /\ m_wrappers st2 !! 1 = Some (mkWrapper 3 "Mode" false).
Proof. vm_compute. repeat split. Qed.

End IdentityFacts.

(** ** Association and Single *)
Module SingleFacts.
Import Tree Descriptors Single TreeFacts ContainmentFacts.

Lemma lookup_put_attr (name : string) (v : AttrVal) (attrs : list (string * AttrVal)) :
  lookup_attr name (put_attr name v attrs) = Some v.
Proof.
  induction attrs as [| [k w] attrs IH]; simpl.
  - now rewrite String.eqb_refl.
  - destruct (String.eqb k name) eqn:E; simpl; rewrite E; auto.
Qed.

Lemma lookup_drop_attr (name : string) (attrs : list (string * AttrVal)) :
  lookup_attr name (drop_attr name attrs) = None.
Proof.
  induction attrs as [| [k w] attrs IH]; simpl; [reflexivity |].
  destruct (String.eqb k name) eqn:E; simpl; [assumption |].
  now rewrite E.
Qed.

(** A stored reference list reads back as it was stored. *)
Lemma refs_of_store_refs (name : string) (l : list nat) (nd : Node) :
  refs_of name (store_refs name l nd) = l.
Proof.
  unfold refs_of, store_refs. destruct l as [| x l]; simpl.
  - now rewrite lookup_drop_attr.
  - now rewrite lookup_put_attr.
Qed.

(** What a successful [set] of an association did. *)
Lemma set_inv (sp : Association.spec) (owner : nat) (l : list nat)
  (st st' : Model) (u : unit) :
  Association.set sp owner l st = Ok u st' ->
  is_Some (live_node st owner)
  /\ forallb (node_matches st (Association.as_class sp)) l = true
  /\ Association.within_bound sp (length l) = true
  /\ st' = update_node owner (store_refs (Association.as_attr sp) l) st.
Proof.
  unfold Association.set.
  destruct (live_node st owner) as [nd |]; [| discriminate].
  destruct (forallb _ l); simpl; [| discriminate].
  destruct (Association.within_bound sp (length l)); simpl; [| discriminate].
  intros [= <-]. eauto.
Qed.

(** A failed [set] leaves the model as it was. *)
Lemma set_atomic (sp : Association.spec) (owner : nat) (l : list nat)
  (st st' : Model) (e : exn) :
  Association.set sp owner l st = Raise e st' -> st' = st.
Proof.
  unfold Association.set.
  destruct (live_node st owner) as [nd |]; [| now intros [= _ <-]].
  destruct (negb _); [now intros [= _ <-] |].
  destruct (negb _); [now intros [= _ <-] | discriminate].
Qed.

Lemma set_get (sp : Association.spec) (owner : nat) (l : list nat)
  (st st' : Model) (u : unit) :
  Association.set sp owner l st = Ok u st' ->
  Association.get st' sp owner = l.
Proof.
  intros H. apply set_inv in H as ([nd Hl] & _ & _ & ->).
  apply live_node_Some in Hl as [Hnd _].
  unfold Association.get. simpl. rewrite lookup_alter_eq, Hnd. simpl.
  apply refs_of_store_refs.
Qed.

(** An association is a relation [Single] can wrap. *)
Lemma of_association_lawful (sp : Association.spec) : lawful (of_association sp).
Proof.
  split; simpl.
  - intros st o x y st' H. unfold Association.append in H.
    destruct (Association.set sp o _ st) as [u st1 | e st1] eqn:E; [| discriminate].
    injection H as _ <-. exact (set_get _ _ _ _ _ _ E).
  - intros st o x e st' H. unfold Association.append in H.
    destruct (Association.set sp o _ st) as [u st1 | e1 st1] eqn:E; [discriminate |].
    injection H as _ <-. exact (set_atomic _ _ _ _ _ _ E).
  - intros st o l u st' H. exact (set_get _ _ _ _ _ _ H).
  - intros st o l e st' H. exact (set_atomic _ _ _ _ _ _ H).
Qed.

(** C3: when a [Single]-wrapped relation holds one member, an append
    raises [CardinalityError] and leaves the model, and with it the
    member, as it was; so of two appends in a row the second fails.  In
    general the relation, once it holds at most one member, keeps doing
    so under every mutation of the binding; a mutation that would give
    it a second member fails before anything is stored, and any failed
    mutation leaves the model unchanged. *)
Theorem single_holds_at_most_one :
  forall (R : relation) (mandatory : bool) (st : Model) (owner : nat),
    lawful R ->
    (forall m x,
        rel_get R st owner = [m] ->
        append R owner x st = Raise CardinalityError st
        /\ rel_get R (state_of (append R owner x st)) owner = [m])
    /\ (forall x y r st1,
          rel_get R st owner = [] ->
          append R owner x st = Ok r st1 ->
          rel_get R st1 owner = [x]
          /\ append R owner y st1 = Raise CardinalityError st1)
    /\ (forall mu,
          length (rel_get R st owner) <= 1 ->
          length (rel_get R (state_of (mutate R mandatory owner mu st)) owner) <= 1)
    /\ (forall x,
          1 <= length (rel_get R st owner) ->
          mutate R mandatory owner (Append x) st = Raise CardinalityError st)
    /\ (forall mu e st',
          mutate R mandatory owner mu st = Raise e st' -> st' = st).
Proof.
  intros R mandatory st owner L.
  assert (A1 : forall s m x, rel_get R s owner = [m] ->
                             append R owner x s = Raise CardinalityError s).
  { intros s m x H. unfold append. now rewrite H. }
  split; [| split; [| split; [| split]]].
  - intros m x H. rewrite (A1 st m x H). auto.
  - intros x y r st1 H E. unfold append in E. rewrite H in E.
    pose proof (append_adds R L _ _ _ _ _ E) as G. rewrite H in G. simpl in G.
    split; [exact G | exact (A1 st1 x y G)].
  - intros mu Hlen. destruct mu as [x | x |]; simpl.
    + unfold append. destruct (rel_get R st owner) as [| m l] eqn:G.
      * destruct (rel_append R owner x st) as [r st1 | e st1] eqn:E; simpl.
        -- rewrite (append_adds R L _ _ _ _ _ E), G. simpl. lia.
        -- rewrite (append_atomic R L _ _ _ _ _ E), G. simpl. lia.
      * simpl. rewrite G. exact Hlen.
    + unfold write. destruct (rel_write R owner [x] st) as [u st1 | e st1] eqn:E; simpl.
      * rewrite (write_replaces R L _ _ _ _ _ E). simpl. lia.
      * now rewrite (write_atomic R L _ _ _ _ _ E).
    + unfold clear. destruct mandatory; simpl; [exact Hlen |].
      destruct (rel_write R owner [] st) as [u st1 | e st1] eqn:E; simpl.
      * rewrite (write_replaces R L _ _ _ _ _ E). simpl. lia.
      * now rewrite (write_atomic R L _ _ _ _ _ E).
  - intros x Hlen. simpl. unfold append.
    destruct (rel_get R st owner) as [| m l]; [simpl in Hlen; lia | reflexivity].
  - intros mu e st' H. destruct mu as [x | x |]; simpl in H.
    + unfold append in H. destruct (rel_get R st owner) as [| m l].
      * destruct (rel_append R owner x st) as [r st1 | e1 st1] eqn:E;
          [discriminate |].
        injection H as _ <-. exact (append_atomic R L _ _ _ _ _ E).
      * now injection H as _ <-.
    + exact (write_atomic R L _ _ _ _ _ H).
    + unfold clear in H. destruct mandatory; [now injection H as _ <- |].
      exact (write_atomic R L _ _ _ _ _ H).
Qed.

Lemma single_holds_at_most_one_witness :
  let R := Examples.AbstractTypedElement_type in
  let st := Examples.typed_model in
  let st1 := state_of (append R 1 2 st) in
  append R 1 2 st = Ok 2 st1
  /\ rel_get R st1 1 = [2]
  /\ append R 1 3 st1 = Raise CardinalityError st1
  /\ rel_get R (state_of (append R 1 3 st1)) 1 = [2]
  /\ length (rel_get R (state_of (mutate R false 1 (Write 3) st1)) 1) <= 1.
Proof.
  intros R st st1.
  pose proof (single_holds_at_most_one R false st 1
                (of_association_lawful _)) as (_ & H2 & _).
  pose proof (single_holds_at_most_one R false st1 1
                (of_association_lawful _)) as (H1 & _ & H3 & _).
  assert (E : append R 1 2 st = Ok 2 st1) by (vm_compute; reflexivity).
  destruct (H2 2 3 2 st1 eq_refl E) as [G F].
  split; [exact E | split; [exact G | split; [exact F | split]]].
  - exact (proj2 (H1 2 3 G)).
  - apply (H3 (Write 3)). rewrite G. simpl. lia.
Defined.

(** The same run, evaluated: the property's type stays class 2, and the
    attribute on its node still refers to node 2 only. *)
Example single_run :
  let R := Examples.AbstractTypedElement_type in
  let st1 := state_of (append R 1 2 Examples.typed_model) in
  let st2 := state_of (append R 1 3 st1) in
  get R st1 1 = rret (VElem 2)
  /\ st2 = st1
  /\ n_attrs <$> m_nodes st2 !! 1 = Some [("abstractType", Refs [2])].
Proof. vm_compute. repeat split. Qed.

End SingleFacts.

(** ** More on PhysicalLink.source and PhysicalLink.target *)
Module PhysicalLinkMore.
Import PhysicalLink.

(** A setter accepts an end exactly when the link has room for it or
    two ends to choose from: [source] with no end or two, [target] with
    one end or two.  An accepted end is the end the getter returns next,
    and the other end is as it was; a refused assignment leaves [ends]
    as it was. *)
Theorem physical_link_set_then_get {End : Type} :
  forall (ends : list End) (e : End),
    (fst (set_source ends (Some e)) = None
     <-> length ends = 0 \/ length ends = 2)
    /\ (fst (set_source ends (Some e)) = None ->
        source (snd (set_source ends (Some e))) = Some e
        /\ target (snd (set_source ends (Some e))) = target ends)
    /\ (fst (set_source ends (Some e)) <> None ->
        snd (set_source ends (Some e)) = ends)
    /\ (fst (set_target ends (Some e)) = None
        <-> length ends = 1 \/ length ends = 2)
    /\ (fst (set_target ends (Some e)) = None ->
        target (snd (set_target ends (Some e))) = Some e
        /\ source (snd (set_target ends (Some e))) = source ends)
    /\ (fst (set_target ends (Some e)) <> None ->
        snd (set_target ends (Some e)) = ends).
Proof.
  intros ends e.
  destruct ends as [| e0 [| e1 [| e2 rest]]]; simpl;
    repeat split; try reflexivity; try discriminate; try congruence;
    try (intros; lia); try (intros [H | H]; discriminate H); auto.
Qed.

Lemma physical_link_set_then_get_witness :
  target (snd (set_target [10; 20] (Some 7))) = Some 7
  /\ source (snd (set_target [10; 20] (Some 7))) = source [10; 20].
Proof.
  apply (physical_link_set_then_get [10; 20] 7). reflexivity.
Defined.

(** The setters never shorten [ends], add at most one end, and never
    make [ends] longer than two ends when it was not: whatever is
    assigned, the fixed length of two is not exceeded through them. *)
Theorem physical_link_setters_keep_bound {End : Type} :
  forall (ends : list End) (x : option End),
    length ends <= length (snd (set_source ends x))
    /\ length (snd (set_source ends x)) <= Nat.max (length ends) 2
    /\ length (snd (set_source ends x)) <= S (length ends)
    /\ length ends <= length (snd (set_target ends x))
    /\ length (snd (set_target ends x)) <= Nat.max (length ends) 2
    /\ length (snd (set_target ends x)) <= S (length ends).
Proof.
  intros ends x.
  destruct x as [e |]; [| simpl; lia].
  destruct ends as [| e0 [| e1 [| e2 rest]]]; simpl; lia.
Qed.

(** Assigning [source] and then [target] gives a link from the one to
    the other when the link had no end or two ends.  On a link with one
    end the source is refused and keeps that end, while the target is
    accepted; with more than two ends both are refused and [ends] stays
    as it was. *)
Theorem physical_link_source_then_target {End : Type} :
  forall (ends : list End) (s t : End),
    let first := set_source ends (Some s) in
    let second := set_target (snd first) (Some t) in
    (length ends = 0 \/ length ends = 2 ->
     fst first = None /\ fst second = None /\ snd second = [s; t])
    /\ (forall e0, ends = [e0] ->
          class_of_exn <$> fst first = Some CTypeError
          /\ fst second = None /\ snd second = [e0; t])
    /\ (2 < length ends ->
        class_of_exn <$> fst first = Some CTypeError
        /\ class_of_exn <$> fst second = Some CTypeError
        /\ snd second = ends).
Proof.
  intros ends s t. cbv zeta.
  destruct ends as [| e0 [| e1 [| e2 rest]]]; (split; [| split]).
  - intros _. repeat split.
  - intros e0 H. discriminate H.
  - simpl. lia.
  - simpl. lia.
  - intros e0' [= <-]. repeat split.
  - simpl. lia.
  - intros _. repeat split.
  - intros e0' H. discriminate H.
  - simpl. lia.
  - simpl. lia.
  - intros e0' H. discriminate H.
  - intros _. repeat split.
Qed.

End PhysicalLinkMore.

(** ** More on the git credential helper *)
Module GitCredHelperMore.
Import GitCredHelper.

(** [main] reads the environment through [GIT_USERNAME] and
    [GIT_PASSWORD] only: two environments that agree on these two
    variables give the same output and the same ending, whatever else
    they hold. *)
Theorem credhelper_reads_two_variables :
  forall (argv : list string) (environ environ' : gmap string string),
    environ !! "GIT_USERNAME" = environ' !! "GIT_USERNAME" ->
    environ !! "GIT_PASSWORD" = environ' !! "GIT_PASSWORD" ->
    main argv environ = main argv environ'.
Proof.
  intros argv environ environ' Hu Hp. unfold main, print_if_set.
  now rewrite Hu, Hp.
Qed.

Lemma credhelper_reads_two_variables_witness :
  main ["helper"; "get"] {[ "GIT_USERNAME" := "alice"; "HOME" := "/root" ]}
  = main ["helper"; "get"] {[ "GIT_USERNAME" := "alice"; "PATH" := "/bin" ]}.
Proof.
  apply credhelper_reads_two_variables; reflexivity.
Defined.

Lemma print_if_set_text (key var : string) (environ : gmap string string)
  (printed : string) :
  In printed (print_if_set key var environ) ->
  exists v, environ !! var = Some v
            /\ printed = String.append key (String.append "=" v).
Proof.
  unfold print_if_set. destruct (environ !! var) as [v |]; simpl; [| tauto].
  intros [<- | []]. eauto.
Qed.

(** [main] exits exactly when it has fewer than two arguments, always
    with status 1 and before printing anything; otherwise it returns.
    It never calls [print] more than twice, and what a call prints is
    [username=] followed by the value of the [GIT_USERNAME] that is set,
    or [password=] followed by the value of the [GIT_PASSWORD] that is
    set; the value is printed as it is, whatever characters it holds. *)
Theorem credhelper_output_bounds :
  forall (argv : list string) (environ : gmap string string),
    (ending_of (main argv environ) = Exited 1 <-> length argv < 2)
    /\ (ending_of (main argv environ) = Returned <-> 2 <= length argv)
    /\ (length argv < 2 -> stdout (main argv environ) = [])
    /\ length (stdout (main argv environ)) <= 2
    /\ (forall printed, In printed (stdout (main argv environ)) ->
          (exists u, environ !! "GIT_USERNAME" = Some u
                     /\ printed = String.append "username=" u)
          \/ (exists p, environ !! "GIT_PASSWORD" = Some p
                        /\ printed = String.append "password=" p)).
Proof.
  intros argv environ.
  assert (Hshape :
    (length argv < 2 /\ main argv environ = mkRun [] (Exited 1))
    \/ (2 <= length argv /\ main argv environ = mkRun [] Returned)
    \/ (2 <= length argv
        /\ main argv environ =
             mkRun (print_if_set "username" "GIT_USERNAME" environ
                      ++ print_if_set "password" "GIT_PASSWORD" environ)
                   Returned)).
  { unfold main.
    destruct argv as [| prog [| op [| extra rest]]]; simpl.
    - left. split; [lia | reflexivity].
    - left. split; [lia | reflexivity].
    - destruct (String.eqb op "get").
      + right. right. split; [lia | reflexivity].
      + right. left. split; [lia | reflexivity].
    - right. left. split; [lia | reflexivity]. }
  destruct Hshape as [[Hlen ->] | [[Hlen ->] | [Hlen ->]]]; simpl.
  - split; [tauto |]. split; [split; [discriminate | lia] |].
    split; [reflexivity |]. split; [lia | tauto].
  - split; [split; [discriminate | lia] |]. split; [tauto |].
    split; [reflexivity |]. split; [lia | tauto].
  - split; [split; [discriminate | lia] |]. split; [tauto |].
    split; [lia |]. split.
    + unfold print_if_set.
      destruct (environ !! "GIT_USERNAME"), (environ !! "GIT_PASSWORD");
        simpl; lia.
    + intros line Hin. apply in_app_iff in Hin as [Hin | Hin];
        apply print_if_set_text in Hin as (v & Hv & ->); eauto.
Qed.

End GitCredHelperMore.

(** ** PhysicalComponent.related_components *)
Module PhysicalComponentFacts.
Import PhysicalComponent.

Lemma keys_setitem {V : Type} (k : nat) (v : V) (d : pydict V) :
  keys (setitem k v d) =
    if existsb (Nat.eqb k) (keys d) then keys d else keys d ++ [k].
Proof.
  induction d as [| [k' v'] d IH]; simpl; [reflexivity |].
  rewrite (Nat.eqb_sym k k'). destruct (Nat.eqb k' k) eqn:E; simpl; [reflexivity |].
  unfold keys in *. rewrite IH.
  now destruct (existsb (Nat.eqb k) (map fst d)).
Qed.

Lemma keys_fromkeys_from (ks : list nat) (d : pydict unit) :
  keys (fold_left (fun d k => setitem k tt d) ks d) = add_keys ks (keys d).
Proof.
  revert d. induction ks as [| k ks IH]; intros d; simpl; [reflexivity |].
  rewrite IH, keys_setitem. reflexivity.
Qed.

Lemma keys_update {V : Type} (d other : pydict V) :
  keys (update d other) = add_keys (keys other) (keys d).
Proof.
  unfold update. revert d.
  induction other as [| [k v] other IH]; intros d; simpl; [reflexivity |].
  rewrite IH, keys_setitem. reflexivity.
Qed.

(** What the dictionary operations amount to on the keys. *)
Lemma related_components_add_keys (deployed owned : list nat) :
  related_components deployed owned
  = add_keys (add_keys owned []) (add_keys deployed []).
Proof.
  unfold related_components, fromkeys.
  rewrite keys_update, !keys_fromkeys_from. reflexivity.
Qed.

Lemma existsb_eqb (k : nat) (l : list nat) :
  existsb (Nat.eqb k) l = true <-> In k l.
Proof.
  rewrite existsb_exists. split.
  - intros (y & Hy & E). apply Nat.eqb_eq in E. now subst.
  - intros H. exists k. split; [assumption | apply Nat.eqb_refl].
Qed.

Lemma add_keys_In (ks acc : list nat) (x : nat) :
  In x (add_keys ks acc) <-> In x acc \/ In x ks.
Proof.
  unfold add_keys. revert acc.
  induction ks as [| k ks IH]; intros acc; simpl; [tauto |].
  rewrite IH. destruct (existsb (Nat.eqb k) acc) eqn:E.
  - apply existsb_eqb in E. split; [tauto |].
    intros [H | [<- | H]]; auto.
  - rewrite in_app_iff. simpl. tauto.
Qed.

Lemma add_keys_NoDup (ks acc : list nat) :
  NoDup acc -> NoDup (add_keys ks acc).
Proof.
  unfold add_keys. revert acc.
  induction ks as [| k ks IH]; intros acc Hnd; simpl; [assumption |].
  apply IH. destruct (existsb (Nat.eqb k) acc) eqn:E; [assumption |].
  apply NoDup_app. split; [assumption | split].
  - intros x Hx Hx'. apply list_elem_of_singleton in Hx'. subst x.
    apply list_elem_of_In, existsb_eqb in Hx. congruence.
  - apply NoDup_singleton.
Qed.

(** The keys that were there stay in front, in their order. *)
Lemma add_keys_prefix (ks acc : list nat) :
  exists added, add_keys ks acc = acc ++ added.
Proof.
  unfold add_keys. revert acc.
  induction ks as [| k ks IH]; intros acc; simpl.
  - exists []. now rewrite app_nil_r.
  - destruct (existsb (Nat.eqb k) acc); [apply IH |].
    destruct (IH (acc ++ [k])) as [added H]. exists (k :: added).
    rewrite H, <- app_assoc. reflexivity.
Qed.

(** Keys without repetition are added in their order, those already
    there left out. *)
Lemma add_keys_distinct (ks acc : list nat) :
  NoDup ks ->
  add_keys ks acc
  = acc ++ List.filter (fun k => negb (existsb (Nat.eqb k) acc)) ks.
Proof.
  unfold add_keys. revert acc.
  induction ks as [| k ks IH]; intros acc Hnd; simpl.
  - now rewrite app_nil_r.
  - apply NoDup_cons in Hnd as [Hk Hnd].
    destruct (existsb (Nat.eqb k) acc) eqn:E; simpl.
    + apply IH, Hnd.
    + rewrite (IH _ Hnd), <- app_assoc. simpl. do 2 f_equal.
      apply List.filter_ext_in. intros x Hx.
      rewrite existsb_app. simpl. rewrite orb_false_r.
      destruct (Nat.eqb_spec x k) as [-> | _]; [| now rewrite orb_false_r].
      exfalso. apply Hk. now apply list_elem_of_In.
Qed.

Lemma filter_keep_all (l : list nat) :
  List.filter (fun k => negb (existsb (Nat.eqb k) [])) l = l.
Proof. induction l as [| x l IH]; simpl in *; [reflexivity | now f_equal]. Qed.

(** The related components are the deployed and the owned components,
    each listed once: no component is repeated, a component is listed
    exactly when it is deployed or owned, and the deployed ones come
    first (the list starts with what [related_components] gives for the
    deployed components alone). *)
Theorem related_components_union_once :
  forall (deployed owned : list nat),
    NoDup (related_components deployed owned)
    /\ (forall x, In x (related_components deployed owned)
                  <-> In x deployed \/ In x owned)
    /\ exists added,
         related_components deployed owned
         = related_components deployed [] ++ added.
Proof.
  intros deployed owned. rewrite !related_components_add_keys.
  split; [| split].
  - apply add_keys_NoDup, add_keys_NoDup, NoDup_nil_2.
  - intros x. rewrite !add_keys_In. simpl. tauto.
  - simpl. apply add_keys_prefix.
Qed.

(** When neither list repeats a component, the related components are
    the deployed ones in their order, followed by the owned ones that
    are not deployed, in theirs. *)
Theorem related_components_order :
  forall (deployed owned : list nat),
    NoDup deployed ->
    NoDup owned ->
    related_components deployed owned
    = deployed
      ++ List.filter (fun c => negb (existsb (Nat.eqb c) deployed)) owned.
Proof.
  intros deployed owned Hd Ho. rewrite related_components_add_keys.
  rewrite (add_keys_distinct deployed [] Hd), (add_keys_distinct owned [] Ho).
  rewrite !filter_keep_all. simpl. apply add_keys_distinct, Ho.
Qed.

Lemma related_components_order_witness :
  related_components [4; 2; 7] [2; 9; 4; 1]
  = [4; 2; 7]
    ++ List.filter (fun c => negb (existsb (Nat.eqb c) [4; 2; 7])) [2; 9; 4; 1].
Proof.
  apply related_components_order.
  - apply NoDup_ListNoDup. repeat constructor; simpl; intuition discriminate.
  - apply NoDup_ListNoDup. repeat constructor; simpl; intuition discriminate.
Defined.

(** A run: a component that is both deployed and owned keeps the place
    it has among the deployed ones; repetitions are dropped. *)
Example related_components_run :
  related_components [4; 2; 4; 7] [2; 9; 9; 1] = [4; 2; 7; 9; 1].
Proof. reflexivity. Qed.

End PhysicalComponentFacts.

(** ** Inherited properties and literals *)
Module InheritedFacts.
Import Inherited.

Section Classifier.
Variable owned : nat -> list nat.
Variable super : nat -> option nat.
Variable is_class : nat -> bool.
Variable is_enumeration : nat -> bool.

(** The properties of a class are what the classes of its super chain
    own, the class's own properties first and each super's after those
    of the class below it, when the chain ends with a class that has no
    super.  When it ends with a class whose super is no [Class],
    [properties] raises [AttributeError] instead.  The recursion needs
    one level per class of the chain: with less it raises
    [RecursionError]. *)
Theorem properties_along_super_chain :
  forall (rest : list nat) (c depth : nat),
    super_chain super is_class (c :: rest) ->
    properties owned super is_class depth c =
      if Nat.leb (length (c :: rest)) depth
      then match super (top c rest) with
           | None => inr (flat_map owned (c :: rest))
           | Some _ => inl (AttributeError "properties")
           end
      else inl RecursionError.
Proof.
  induction rest as [| s rest IH]; intros c depth Hchain.
  - simpl in Hchain. destruct depth as [| d]; simpl; [reflexivity |].
    destruct (super c) as [s |]; [now rewrite Hchain | now rewrite app_nil_r].
  - destruct Hchain as (Hsuper & Hclass & Hrest).
    destruct depth as [| d]; [reflexivity |].
    change (properties owned super is_class (S d) c)
      with (match super c with
            | Some s' =>
                if is_class s' then
                  match properties owned super is_class d s' with
                  | inr inherited => inr (owned c ++ inherited)
                  | inl e => inl e
                  end
                else inl (AttributeError "properties")
            | None => inr (owned c)
            end).
    rewrite Hsuper, Hclass, (IH s d Hrest).
    change (Nat.leb (length (c :: s :: rest)) (S d))
      with (Nat.leb (length (s :: rest)) d).
    change (top c (s :: rest)) with (top s rest).
    destruct (Nat.leb (length (s :: rest)) d); [| reflexivity].
    now destruct (super (top s rest)).
Qed.

(** On a hierarchy of classes that never ends (a class that is,
    directly or through other classes, its own super) [properties]
    never returns a list: it raises [RecursionError] whatever the depth
    allowed. *)
Theorem properties_of_cyclic_hierarchy :
  forall (c : nat),
    (forall n, nth_super super is_class n c <> None) ->
    forall depth, properties owned super is_class depth c = inl RecursionError.
Proof.
  intros c Hcyc depth. revert c Hcyc.
  induction depth as [| d IH]; intros c Hcyc; [reflexivity |].
  simpl. pose proof (Hcyc 1) as H1. simpl in H1.
  destruct (super c) as [s |] eqn:Hs; [| congruence].
  destruct (is_class s) eqn:Hk; [| congruence].
  rewrite (IH s); [reflexivity |].
  intros n. specialize (Hcyc (S n)). simpl in Hcyc. now rewrite Hs, Hk in Hcyc.
Qed.

(** The literals of an enumeration are what it and its successive
    supers own, as long as those supers are enumerations: the chain
    stops at the first super that is none, whatever that one owns.  As
    for [properties], one level of depth per enumeration is needed. *)
Theorem literals_along_enumeration_chain :
  forall (rest : list nat) (c depth : nat),
    enumeration_chain super is_enumeration (c :: rest) ->
    literals owned super is_enumeration depth c =
      if Nat.leb (length (c :: rest)) depth
      then inr (flat_map owned (c :: rest))
      else inl RecursionError.
Proof.
  induction rest as [| s rest IH]; intros c depth Hchain.
  - simpl in Hchain. destruct depth as [| d]; simpl; [reflexivity |].
    destruct (super c) as [s |]; [rewrite Hchain |]; now rewrite app_nil_r.
  - destruct Hchain as (Hsuper & Henum & Hrest).
    destruct depth as [| d]; [reflexivity |].
    change (literals owned super is_enumeration (S d) c)
      with (match super c with
            | Some s' =>
                if is_enumeration s' then
                  match literals owned super is_enumeration d s' with
                  | inr inherited => inr (owned c ++ inherited)
                  | inl e => inl e
                  end
                else inr (owned c)
            | None => inr (owned c)
            end).
    rewrite Hsuper, Henum, (IH s d Hrest).
    change (Nat.leb (length (c :: s :: rest)) (S d))
      with (Nat.leb (length (s :: rest)) d).
    now destruct (Nat.leb (length (s :: rest)) d).
Qed.

End Classifier.

Lemma properties_along_super_chain_witness :
  let owned := fun c => match c with 0 => [10; 11] | 1 => [20] | _ => [30; 31] end in
  let super := fun c => match c with 0 => Some 1 | 1 => Some 2 | _ => None end in
  properties owned super (fun _ => true) 5 0
  = inr [10; 11; 20; 30; 31]
  /\ properties owned super (fun c => Nat.leb c 1) 5 0
     = inl (AttributeError "properties").
Proof.
  intros owned super. split.
  - apply (properties_along_super_chain owned super (fun _ => true) [1; 2] 0 5).
    simpl. auto.
  - apply (properties_along_super_chain owned super (fun c => Nat.leb c 1) [1] 0 5).
    simpl. auto.
Defined.

Lemma properties_of_cyclic_hierarchy_witness :
  properties (fun c => [c]) (fun c => Some (1 - c)) (fun _ => true) 100 0
  = inl RecursionError.
Proof.
  apply (properties_of_cyclic_hierarchy
           (fun c => [c]) (fun c => Some (1 - c)) (fun _ => true) 0).
  assert (H : forall n c,
             nth_super (fun c => Some (1 - c)) (fun _ => true) n c <> None).
  { induction n as [| n IH]; intros c; simpl; [discriminate | apply IH]. }
  intros n. apply H.
Defined.

Lemma literals_along_enumeration_chain_witness :
  let owned := fun c => match c with 0 => [10; 11] | 1 => [20] | _ => [30; 31] end in
  let super := fun c => match c with 0 => Some 1 | 1 => Some 2 | _ => None end in
  let is_enumeration := fun c => Nat.leb c 1 in
  literals owned super is_enumeration 5 0 =
    if Nat.leb (length [0; 1]) 5
    then inr (flat_map owned [0; 1])
    else inl RecursionError.
Proof.
  intros owned super is_enumeration.
  apply (literals_along_enumeration_chain owned super is_enumeration [1] 0 5).
  simpl. auto.
Defined.

End InheritedFacts.

(** ** The root accessors *)
Module RootsFacts.
Import Tree Descriptors Metamodel Roots.

Section Accessors.
Variable getattr : Model -> nat -> string -> reading value.
Variable short_repr : nat -> string.

Lemma rbind_result {A B : Type} (r : reading A) (k : A -> reading B) :
  r_result (rbind r k) =
    match r_result r with
    | inl e => inl e
    | inr a => r_result (k a)
    end.
Proof. unfold rbind. now destruct (r_result r). Qed.

(** The outcome of the "exactly one" check both [root_activity] and
    [root_entity] make on the candidates they read. *)
Lemma exactly_one_result (candidates : value) (empty_msg many_msg : string) :
  r_result
    (rbind (len candidates) (fun n =>
       if Nat.ltb n 1 then rraise (BrokenModelError empty_msg)
       else if Nat.ltb 1 n then
         rraise (RuntimeError (String.append many_msg (pretty n)))
       else first candidates))
  = match candidates with
    | VList [] => inl (BrokenModelError empty_msg)
    | VList [x] => inr x
    | VList (x :: y :: l) =>
        inl (RuntimeError (String.append many_msg (pretty (length (x :: y :: l)))))
    | _ => inl (TypeError "object has no len()")
    end.
Proof.
  destruct candidates as [l | n | | b]; try reflexivity.
  destruct l as [| x [| y l]]; reflexivity.
Qed.

(** [root_entity] returns an entity exactly when the root entity
    package holds that entity and no other.  With no package, or an
    empty one, it raises [BrokenModelError]; with several entities it
    raises [RuntimeError], naming their number.  In every case it logs
    its deprecation warning first. *)
Theorem root_entity_exactly_one :
  forall (st : Model) (self : nat),
    (forall x,
        r_result (root_entity getattr st self) = inr x
        <-> exists p,
              r_result (getattr st self "entity_pkg") = inr (VElem p)
              /\ r_result (getattr st p "entities") = inr (VList [x]))
    /\ (r_result (getattr st self "entity_pkg") = inr VNone ->
        r_result (root_entity getattr st self)
        = inl (BrokenModelError "OperationalAnalysis has no root EntityPkg"))
    /\ (forall p,
          r_result (getattr st self "entity_pkg") = inr (VElem p) ->
          (r_result (getattr st p "entities") = inr (VList []) ->
           r_result (root_entity getattr st self)
           = inl (BrokenModelError "Root EntityPkg is empty"))
          /\ (forall x y l,
                r_result (getattr st p "entities") = inr (VList (x :: y :: l)) ->
                r_result (root_entity getattr st self)
                = inl (RuntimeError
                         (String.append
                            "Expected 1 object for OperationalAnalysis.root_entity, got "
                            (pretty (2 + length l))))))
    /\ wn_category <$> head (r_warnings (root_entity getattr st self))
       = Some "FutureWarning".
Proof.
  intros st self.
  assert (R : r_result (root_entity getattr st self) =
              match r_result (getattr st self "entity_pkg") with
              | inl e => inl e
              | inr VNone =>
                  inl (BrokenModelError "OperationalAnalysis has no root EntityPkg")
              | inr (VElem p) =>
                  match r_result (getattr st p "entities") with
                  | inl e => inl e
                  | inr (VList []) => inl (BrokenModelError "Root EntityPkg is empty")
                  | inr (VList [x]) => inr x
                  | inr (VList (x :: y :: l)) =>
                      inl (RuntimeError
                             (String.append
                                "Expected 1 object for OperationalAnalysis.root_entity, got "
                                (pretty (length (x :: y :: l)))))
                  | inr _ => inl (TypeError "object has no len()")
                  end
              | inr _ => inl (AttributeError "entities")
              end).
  { unfold root_entity. simpl. rewrite rbind_result.
    destruct (r_result (getattr st self "entity_pkg")) as [e | [l | p | | b]];
      try reflexivity.
    rewrite rbind_result.
    destruct (r_result (getattr st p "entities")) as [e | cands]; [reflexivity |].
    apply exactly_one_result. }
  split; [| split; [| split]].
  - intros x. rewrite R. split.
    + destruct (r_result (getattr st self "entity_pkg")) as [e | [l | p | | b]];
        try discriminate.
      destruct (r_result (getattr st p "entities"))
        as [e | [[| y [| z l]] | | |]] eqn:E; try discriminate.
      intros [= ->]. exists p. split; [reflexivity | exact E].
    + intros (p & -> & ->). reflexivity.
  - intros H. now rewrite R, H.
  - intros p Hp. split.
    + intros H. now rewrite R, Hp, H.
    + intros x y l H. now rewrite R, Hp, H.
  - reflexivity.
Qed.

(** [root_activity] returns an activity exactly when the root package
    is an [OperationalActivityPkg] that holds that activity and no
    other.  It raises [BrokenModelError] when there is no package or no
    activity in it, [RuntimeError] when there are several, and
    [AssertionError] when the package is of another type. *)
Theorem root_activity_exactly_one :
  forall (st : Model) (self : nat),
    (forall x,
        r_result (root_activity getattr st self) = inr x
        <-> exists p,
              r_result (getattr st self "activity_pkg") = inr (VElem p)
              /\ node_matches st (mkQName NS_OA "OperationalActivityPkg") p = true
              /\ r_result (getattr st p "activities") = inr (VList [x]))
    /\ (r_result (getattr st self "activity_pkg") = inr VNone ->
        r_result (root_activity getattr st self)
        = inl (BrokenModelError "OperationalAnalysis has no root ActivityPkg"))
    /\ (forall p,
          r_result (getattr st self "activity_pkg") = inr (VElem p) ->
          (node_matches st (mkQName NS_OA "OperationalActivityPkg") p = false ->
           r_result (root_activity getattr st self) = inl AssertionError)
          /\ (node_matches st (mkQName NS_OA "OperationalActivityPkg") p = true ->
              (r_result (getattr st p "activities") = inr (VList []) ->
               r_result (root_activity getattr st self)
               = inl (BrokenModelError "ActivityPkg does not contain any Activities"))
              /\ (forall x y l,
                    r_result (getattr st p "activities")
                    = inr (VList (x :: y :: l)) ->
                    r_result (root_activity getattr st self)
                    = inl (RuntimeError
                             (String.append
                                "Expected 1 object for OperationalAnalysis.root_activity, got "
                                (pretty (2 + length l)))))))
    /\ wn_category <$> head (r_warnings (root_activity getattr st self))
       = Some "FutureWarning".
Proof.
  intros st self.
  assert (R : r_result (root_activity getattr st self) =
              match r_result (getattr st self "activity_pkg") with
              | inl e => inl e
              | inr VNone =>
                  inl (BrokenModelError "OperationalAnalysis has no root ActivityPkg")
              | inr (VElem p) =>
                  if node_matches st (mkQName NS_OA "OperationalActivityPkg") p then
                    match r_result (getattr st p "activities") with
                    | inl e => inl e
                    | inr (VList []) =>
                        inl (BrokenModelError
                               "ActivityPkg does not contain any Activities")
                    | inr (VList [x]) => inr x
                    | inr (VList (x :: y :: l)) =>
                        inl (RuntimeError
                               (String.append
                                  "Expected 1 object for OperationalAnalysis.root_activity, got "
                                  (pretty (length (x :: y :: l)))))
                    | inr _ => inl (TypeError "object has no len()")
                    end
                  else inl AssertionError
              | inr _ => inl AssertionError
              end).
  { unfold root_activity. simpl. rewrite rbind_result.
    destruct (r_result (getattr st self "activity_pkg")) as [e | [l | p | | b]];
      try reflexivity.
    destruct (node_matches st (mkQName NS_OA "OperationalActivityPkg") p);
      simpl; [| reflexivity].
    rewrite rbind_result.
    destruct (r_result (getattr st p "activities")) as [e | cands]; [reflexivity |].
    apply exactly_one_result. }
  split; [| split; [| split]].
  - intros x. rewrite R. split.
    + destruct (r_result (getattr st self "activity_pkg")) as [e | [l | p | | b]];
        try discriminate.
      destruct (node_matches st (mkQName NS_OA "OperationalActivityPkg") p) eqn:M;
        [| discriminate].
      destruct (r_result (getattr st p "activities"))
        as [e | [[| y [| z l]] | | |]] eqn:E; try discriminate.
      intros [= ->]. exists p. repeat split; assumption.
    + intros (p & -> & -> & ->). reflexivity.
  - intros H. now rewrite R, H.
  - intros p Hp. split.
    + intros M. now rewrite R, Hp, M.
    + intros M. split.
      * intros H. now rewrite R, Hp, M, H.
      * intros x y l H. now rewrite R, Hp, M, H.
  - reflexivity.
Qed.

(** [root_function] returns a function exactly when the function
    package has one, and then its first: further functions in the
    package are no error.  It raises [RuntimeError] for an empty package
    and [AssertionError] when there is no package. *)
Theorem root_function_is_first :
  forall (st : Model) (self : nat),
    (forall x,
        r_result (root_function getattr short_repr st self) = inr x
        <-> exists p l,
              r_result (getattr st self "function_pkg") = inr (VElem p)
              /\ r_result (getattr st p "functions") = inr (VList (x :: l)))
    /\ (r_result (getattr st self "function_pkg") = inr VNone ->
        r_result (root_function getattr short_repr st self) = inl AssertionError)
    /\ (forall p,
          r_result (getattr st self "function_pkg") = inr (VElem p) ->
          r_result (getattr st p "functions") = inr (VList []) ->
          r_result (root_function getattr short_repr st self)
          = inl (RuntimeError
                   (String.append "Package "
                      (String.append (short_repr p) " is empty")))).
Proof.
  intros st self.
  assert (R : r_result (root_function getattr short_repr st self) =
              match r_result (getattr st self "function_pkg") with
              | inl e => inl e
              | inr VNone => inl AssertionError
              | inr (VElem p) =>
                  match r_result (getattr st p "functions") with
                  | inl e => inl e
                  | inr (VList []) =>
                      inl (RuntimeError
                             (String.append "Package "
                                (String.append (short_repr p) " is empty")))
                  | inr (VList (x :: _)) => inr x
                  | inr (VElem _) => inl (TypeError "object is not subscriptable")
                  | inr VNone =>
                      inl (RuntimeError
                             (String.append "Package "
                                (String.append (short_repr p) " is empty")))
                  | inr (VBool true) => inl (TypeError "object is not subscriptable")
                  | inr (VBool false) =>
                      inl (RuntimeError
                             (String.append "Package "
                                (String.append (short_repr p) " is empty")))
                  end
              | inr _ => inl (AttributeError "functions")
              end).
  { unfold root_function. rewrite rbind_result.
    destruct (r_result (getattr st self "function_pkg")) as [e | [l | p | | b]];
      try reflexivity.
    rewrite rbind_result.
    destruct (r_result (getattr st p "functions")) as [e | fs] eqn:E; [reflexivity |].
    destruct fs as [[| x l] | n | | [|]]; simpl; try reflexivity;
      rewrite rbind_result, E; reflexivity. }
  split; [| split].
  - intros x. rewrite R. split.
    + destruct (r_result (getattr st self "function_pkg")) as [e | [l | p | | b]];
        try discriminate.
      destruct (r_result (getattr st p "functions"))
        as [e | [[| y l] | | | [|]]] eqn:E; try discriminate.
      intros [= ->]. exists p, l. split; [reflexivity | exact E].
    + intros (p & l & -> & ->). reflexivity.
  - intros H. now rewrite R, H.
  - intros p Hp H. now rewrite R, Hp, H.
Qed.

Lemma rbind_ext {A B : Type} (r : reading A) (k k' : A -> reading B) :
  (forall a, k a = k' a) -> rbind r k = rbind r k'.
Proof. intros H. unfold rbind. destruct (r_result r); now rewrite ?H. Qed.

(** A read that is enforced never gives [None], and is the read itself
    when that does not give [None]. *)
Lemma enforced_result (r : reading value) :
  r_result (enforced r) =
    match r_result r with
    | inr VNone => inl MissingValueError
    | other => other
    end.
Proof.
  unfold enforced. rewrite rbind_result.
  destruct (r_result r) as [e | [l | p | | b]]; reflexivity.
Qed.

Lemma enforced_id (r : reading value) :
  r_result r <> inr VNone -> enforced r = r.
Proof.
  destruct r as [ws [e | [l | p | | b]]]; unfold enforced, rbind; simpl;
    intros H; try congruence; now rewrite app_nil_r.
Qed.

Lemma getattr_pa_other (pa : nat) (st : Model) (n : nat) (name : string) :
  name <> "component_pkg" ->
  getattr_pa getattr pa st n name = getattr st n name.
Proof.
  intros H. unfold getattr_pa.
  apply String.eqb_neq in H. now rewrite H, andb_false_r.
Qed.

Lemma by_bool_getattr_pa (pa : nat) (st : Model) (expected : bool) (l : list nat) :
  by_bool (getattr_pa getattr pa) st "is_actor" expected l
  = by_bool getattr st "is_actor" expected l.
Proof.
  induction l as [| x l IH]; [reflexivity |].
  simpl. rewrite IH, getattr_pa_other by discriminate. reflexivity.
Qed.

(** The three [root_component] properties differ only when there is no
    component package: the system layer raises [BrokenModelError], the
    logical layer fails its assertion, and in the physical layer, where
    [component_pkg] is declared with [enforce=True], it is the read of
    [component_pkg] that raises, so that the [BrokenModelError] of
    [PhysicalArchitecture.root_component] is never reached.  When the
    read does not give [None] the three do the same thing, down to the
    warnings logged. *)
Theorem root_component_across_layers :
  forall (st : Model) (self : nat),
    (r_result (getattr st self "component_pkg") = inr VNone ->
     r_result (root_component getattr st self)
     = inl (BrokenModelError "No root SystemComponentPkg found")
     /\ r_result (root_component_la getattr st self) = inl AssertionError
     /\ r_result (PhysicalArchitecture_root_component getattr st self)
        = inl MissingValueError)
    /\ r_result (getattr_pa getattr self st self "component_pkg") <> inr VNone
    /\ r_result (PhysicalArchitecture_root_component getattr st self)
       = r_result (sole_non_actor (getattr_pa getattr self) st self)
    /\ (r_result (getattr st self "component_pkg") <> inr VNone ->
        root_component_la getattr st self = root_component getattr st self
        /\ PhysicalArchitecture_root_component getattr st self
           = root_component getattr st self).
Proof.
  intros st self.
  assert (E : r_result (getattr_pa getattr self st self "component_pkg")
              = match r_result (getattr st self "component_pkg") with
                | inr VNone => inl MissingValueError
                | other => other
                end).
  { unfold getattr_pa. rewrite Nat.eqb_refl. simpl. apply enforced_result. }
  split; [| split; [| split]].
  - intros H. split; [| split].
    + unfold root_component. now rewrite rbind_result, H.
    + unfold root_component_la. now rewrite rbind_result, H.
    + unfold PhysicalArchitecture_root_component, root_component_pa.
      now rewrite rbind_result, E, H.
  - rewrite E.
    destruct (r_result (getattr st self "component_pkg")) as [e | [l | p | | b]];
      discriminate.
  - unfold PhysicalArchitecture_root_component, root_component_pa.
    rewrite rbind_result.
    destruct (r_result (getattr_pa getattr self st self "component_pkg"))
      as [e | [l | p | | b]] eqn:R; try reflexivity.
    + unfold sole_non_actor. now rewrite rbind_result, R.
    + rewrite E in R.
      destruct (r_result (getattr st self "component_pkg")) as [e | [l | p | | b]];
        discriminate.
  - intros H.
    assert (G : getattr_pa getattr self st self "component_pkg"
                = getattr st self "component_pkg").
    { unfold getattr_pa. rewrite Nat.eqb_refl. simpl. now apply enforced_id. }
    assert (S : sole_non_actor (getattr_pa getattr self) st self
                = sole_non_actor getattr st self).
    { unfold sole_non_actor. rewrite G.
      apply rbind_ext. intros [l | p | | b]; try reflexivity.
      rewrite getattr_pa_other by discriminate.
      apply rbind_ext. intros [l | q | | b]; try reflexivity.
      now rewrite by_bool_getattr_pa. }
    unfold PhysicalArchitecture_root_component, root_component_pa.
    rewrite G, S. clear G S E.
    unfold root_component, root_component_la, sole_non_actor.
    destruct (getattr st self "component_pkg") as [ws [e | [l | p | | b]]];
      unfold rbind; simpl in *; try congruence; split; reflexivity.
Qed.

(** [allocating_physical_link] and [owner] of a component exchange
    return the same link: the first of the allocating physical links,
    or [None] when there is none.  Neither raises on an empty list. *)
Theorem allocating_physical_link_is_first :
  forall (st : Model) (self : nat),
    r_result (allocating_physical_link getattr st self)
    = r_result (ComponentExchange_owner getattr st self)
    /\ (forall links,
          r_result (getattr st self "allocating_physical_links") = inr (VList links) ->
          r_result (allocating_physical_link getattr st self)
          = inr (match links with
                 | [] => VNone
                 | first_link :: _ => VElem first_link
                 end)).
Proof.
  intros st self. split; [reflexivity |].
  intros links H. unfold allocating_physical_link. simpl.
  rewrite rbind_result, H. now destruct links.
Qed.

End Accessors.

(** A run of [root_function] and [root_entity] on a package (node 1
    of layer 0) that holds the three members 5, 6 and 7: the one returns
    the first, the other refuses. *)
Example root_function_and_root_entity_run :
  let reads := fun (st : Model) (n : nat) (name : string) =>
                 if Nat.eqb n 0 then rret (VElem 1) else rret (VList [5; 6; 7]) in
  r_result (root_function reads (fun _ => "<pkg>") Examples.region_model 0) = inr 5
  /\ r_result (root_entity reads Examples.region_model 0)
     = inl (RuntimeError
              "Expected 1 object for OperationalAnalysis.root_entity, got 3").
Proof. split; reflexivity. Qed.

End RootsFacts.

(** ** all_actor_exchanges *)
Module ActorExchangesFacts.
Import ActorExchanges.

(** What [filter] returns, and when it raises. *)
Lemma filter_kept (p : nat -> exn + bool) (l kept : list nat) :
  filter p l = inr kept ->
  sublist kept l /\ forall e, In e kept <-> In e l /\ p e = inr true.
Proof.
  revert kept. induction l as [| a l IH]; simpl; intros kept.
  - intros [= <-]. split; [constructor |]. intros e. simpl. tauto.
  - destruct (p a) as [err | keep] eqn:Ha; [discriminate |].
    destruct (filter p l) as [err | k]; [discriminate |].
    intros [= <-]. destruct (IH k eq_refl) as [Hs Hin]. destruct keep.
    + split; [now constructor |].
      intros e. simpl. rewrite Hin. split.
      * intros [<- | [H1 H2]]; auto.
      * intros [[<- | H1] H2]; auto.
    + split; [now constructor |].
      intros e. rewrite Hin. simpl. split.
      * intros [H1 H2]; auto.
      * intros [[<- | H1] H2]; [congruence | auto].
Qed.

Lemma filter_raises (p : nat -> exn + bool) (l : list nat) (err : exn) :
  filter p l = inl err
  <-> exists before e after,
        l = before ++ e :: after
        /\ p e = inl err
        /\ forall x, In x before -> exists keep, p x = inr keep.
Proof.
  induction l as [| a l IH]; simpl.
  - split; [discriminate |].
    intros (before & e & after & H & _). destruct before; discriminate H.
  - destruct (p a) as [err' | keep] eqn:Ha.
    + split.
      * intros [= ->]. exists [], a, l. repeat split; [assumption |].
        intros x [].
      * intros (before & e & after & H & He & Hb).
        destruct before as [| b0 before]; simpl in H; injection H as <- ->.
        -- congruence.
        -- destruct (Hb a (or_introl eq_refl)) as [keep Hk]. congruence.
    + destruct (filter p l) as [err' | k].
      * split.
        -- intros H. apply IH in H as (before & e & after & -> & He & Hb).
           exists (a :: before), e, after. repeat split; [assumption |].
           intros x [<- | Hx]; eauto.
        -- intros (before & e & after & H & He & Hb). apply IH.
           destruct before as [| b0 before]; simpl in H; injection H as <- ->.
           ++ congruence.
           ++ exists before, e, after. repeat split; [assumption |].
              intros x Hx. apply Hb. now right.
      * split; [discriminate |].
        intros (before & e & after & H & He & Hb).
        destruct before as [| b0 before]; simpl in H; injection H as <- ->.
        -- congruence.
        -- assert (F : @inr exn (list nat) k = inl err); [| discriminate F].
           apply IH. exists before, e, after. repeat split; [assumption |].
           intros x Hx. apply Hb. now right.
Qed.

Lemma filter_ext_in (p q : nat -> exn + bool) (l : list nat) :
  (forall e, In e l -> p e = q e) -> filter p l = filter q l.
Proof.
  induction l as [| a l IH]; intros H; [reflexivity |].
  simpl. rewrite (H a (or_introl eq_refl)), IH; [reflexivity |].
  intros e He. apply H. now right.
Qed.

Lemma filter_returns (p : nat -> exn + bool) (l : list nat) :
  (forall e, In e l -> exists keep, p e = inr keep) ->
  exists kept, filter p l = inr kept.
Proof.
  induction l as [| a l IH]; intros H; simpl; [eauto |].
  destruct (H a (or_introl eq_refl)) as [keep ->].
  destruct IH as [kept ->]; [| eauto].
  intros e He. apply H. now right.
Qed.

Section Layer.
Variable source : nat -> option nat.
Variable target : nat -> option nat.
Variable parent : nat -> option nat.
Variable is_actor : nat -> option bool.

Lemma hangs_under_actor_true (x : option nat) :
  hangs_under_actor parent is_actor x = inr true
  <-> exists port owner,
        x = Some port /\ parent port = Some owner /\ is_actor owner = Some true.
Proof.
  unfold hangs_under_actor. split.
  - destruct x as [port |]; [| discriminate].
    destruct (parent port) as [owner |] eqn:E; [| discriminate].
    destruct (is_actor owner) as [[|] |] eqn:A; try discriminate.
    intros _. eauto.
  - intros (port & owner & -> & -> & ->). reflexivity.
Qed.

Lemma hangs_under_actor_returns (x : option nat) :
  (forall port owner,
      x = Some port -> parent port = Some owner -> is_Some (is_actor owner)) ->
  exists answer, hangs_under_actor parent is_actor x = inr answer.
Proof.
  intros H. unfold hangs_under_actor.
  destruct x as [port |]; [| eauto].
  destruct (parent port) as [owner |] eqn:E; [| eauto].
  destruct (H port owner eq_refl E) as [answer ->]. eauto.
Qed.

Lemma involves_actor_true (e : nat) :
  involves_actor source target parent is_actor e = inr true
  <-> exists port owner,
        parent port = Some owner
        /\ is_actor owner = Some true
        /\ (source e = Some port
            \/ (hangs_under_actor parent is_actor (source e) = inr false
                /\ target e = Some port)).
Proof.
  unfold involves_actor.
  destruct (hangs_under_actor parent is_actor (source e)) as [err | [|]] eqn:Hs.
  - split; [discriminate |].
    intros (port & owner & Hp & Ha & [H | [H _]]); [| discriminate H].
    assert (F : hangs_under_actor parent is_actor (source e) = inr true)
      by (apply hangs_under_actor_true; eauto).
    congruence.
  - split; [| reflexivity]. intros _.
    apply hangs_under_actor_true in Hs as (port & owner & H & Hp & Ha). eauto 7.
  - rewrite hangs_under_actor_true. split.
    + intros (port & owner & H & Hp & Ha). eauto 8.
    + intros (port & owner & Hp & Ha & [H | [_ H]]); [| eauto].
      assert (F : hangs_under_actor parent is_actor (source e) = inr true)
        by (apply hangs_under_actor_true; eauto).
      congruence.
Qed.

(** When it returns, [all_actor_exchanges] gives component exchanges of
    the layer in their order: exactly those for which the predicate
    holds, that is, whose source hangs under an actor, or whose source
    does not and whose target does.  It raises exactly when the
    predicate raises for some exchange, with the error of the first such
    exchange; the predicate raises [AttributeError] when the parent of
    the end it looks at has no [is_actor].  When every parent of an end
    has [is_actor], the call returns, and it makes no difference which
    end is called source and which target. *)
Theorem actor_exchanges_are_component_exchanges :
  forall (all_component_exchanges : list nat),
    (forall kept,
        all_actor_exchanges source target parent is_actor all_component_exchanges
        = inr kept ->
        sublist kept all_component_exchanges
        /\ forall e,
             In e kept
             <-> In e all_component_exchanges
                 /\ involves_actor source target parent is_actor e = inr true)
    /\ (forall e,
          involves_actor source target parent is_actor e = inr true
          <-> exists port owner,
                parent port = Some owner
                /\ is_actor owner = Some true
                /\ (source e = Some port
                    \/ (hangs_under_actor parent is_actor (source e) = inr false
                        /\ target e = Some port)))
    /\ (forall err,
          all_actor_exchanges source target parent is_actor all_component_exchanges
          = inl err
          <-> exists before e after,
                all_component_exchanges = before ++ e :: after
                /\ involves_actor source target parent is_actor e = inl err
                /\ forall x, In x before ->
                     exists keep,
                       involves_actor source target parent is_actor x = inr keep)
    /\ (forall e err,
          involves_actor source target parent is_actor e = inl err ->
          err = AttributeError "is_actor")
    /\ ((forall e port owner,
            In e all_component_exchanges ->
            source e = Some port \/ target e = Some port ->
            parent port = Some owner ->
            is_Some (is_actor owner)) ->
        (exists kept,
            all_actor_exchanges source target parent is_actor all_component_exchanges
            = inr kept)
        /\ all_actor_exchanges target source parent is_actor all_component_exchanges
           = all_actor_exchanges source target parent is_actor
                                 all_component_exchanges).
Proof.
  intros l. unfold all_actor_exchanges.
  split; [| split; [| split; [| split]]].
  - intros kept. apply filter_kept.
  - apply involves_actor_true.
  - intros err. apply filter_raises.
  - intros e err. unfold involves_actor, hangs_under_actor.
    destruct (source e) as [ps |]; [destruct (parent ps) as [os |];
      [destruct (is_actor os) as [[|] |] |] |];
    destruct (target e) as [pt |]; try discriminate;
    try (destruct (parent pt) as [ot |]; try discriminate;
         destruct (is_actor ot) as [[|] |]; try discriminate);
    intros [= <-]; reflexivity.
  - intros Hall.
    assert (Hboth : forall e, In e l ->
              exists a b,
                hangs_under_actor parent is_actor (source e) = inr a
                /\ hangs_under_actor parent is_actor (target e) = inr b).
    { intros e He.
      destruct (hangs_under_actor_returns (source e)) as [a Ha].
      { intros port owner Hs Hp. apply (Hall e port owner He); auto. }
      destruct (hangs_under_actor_returns (target e)) as [b Hb].
      { intros port owner Ht Hp. apply (Hall e port owner He); auto. }
      eauto. }
    split.
    + apply filter_returns. intros e He.
      destruct (Hboth e He) as (a & b & Ha & Hb).
      unfold involves_actor. rewrite Ha. destruct a; [eauto |].
      rewrite Hb. eauto.
    + apply filter_ext_in. intros e He.
      destruct (Hboth e He) as (a & b & Ha & Hb).
      unfold involves_actor. rewrite Ha, Hb. now destruct a, b.
Qed.

End Layer.

(** The order of the two ends matters when a parent has no [is_actor]:
    exchange 0 goes from port 1, under the actor 3, to port 2, under the
    package 4.  Its source settles the answer and its target is not
    looked at; with the ends swapped the predicate raises. *)
Example actor_exchanges_run :
  let source := fun e : nat => Some 1 in
  let target := fun e : nat => Some 2 in
  let parent := fun port => if Nat.eqb port 1 then Some 3 else Some 4 in
  let is_actor := fun owner => if Nat.eqb owner 3 then Some true else None in
  all_actor_exchanges source target parent is_actor [0] = inr [0]
  /\ all_actor_exchanges target source parent is_actor [0]
     = inl (AttributeError "is_actor").
Proof. split; reflexivity. Qed.

End ActorExchangesFacts.
